(** * Pioneer AVR integration: entry lifecycle (setup, options update, unload)

    A shallow embedding of [custom_components/pioneer_async/__init__.py].
    Python values are kept as data, [hass.data] and the dictionaries of a
    config entry are finite maps, and the coroutines are computations in a
    state-and-exception monad whose state is the part of the host the module
    touches: the per-domain store and the ordered list of effects it causes
    (log records, calls into the [aiopioneer] client, device registration,
    scheduled platform tasks, listeners, dispatcher signals).  What the
    collaborators answer is given by an environment.  A coroutine is followed
    on its own: what other tasks of the event loop do while it awaits is left
    out. *)

From stdpp Require Import base option list strings gmap fin_maps.
From Stdlib Require Import ZArith Ascii String.

Set Warnings "-register-all".

Local Open Scope string_scope.
Local Open Scope Z_scope.
Local Open Scope list_scope.

(** ** Python values *)

(** A float is kept as the decimal literal that denotes it. *)
Inductive pyfloat :=
  | FDec (negative : bool) (mantissa : Z) (exponent : Z)
  | FInf (negative : bool)
  | FNaN.

(** A [str] is kept as the bytes of its UTF-8 encoding. *)
Inductive value :=
  | VNone
  | VBool (b : bool)
  | VInt (n : Z)
  | VFloat (f : pyfloat)
  | VStr (s : string)
  | VList (l : list value)
  | VDict (d : gmap string value).

Abbreviation dict := (gmap string value).

(** [bool(x)] for a float: the literal denotes a nonzero binary64 number
    exactly when its magnitude is above half of the least subnormal,
    [2^-1075] (the tie rounds to even, that is to zero). *)
Definition float_nonzero (f : pyfloat) : bool :=
  match f with
  | FDec _ m e =>
      if 0 <=? e then 0 <? Z.abs m
      else 10 ^ (- e) <? Z.abs m * 2 ^ 1075
  | FInf _ => true
  | FNaN => true
  end.

(** Truth value testing, as [if x:] does it. *)
Definition truthy (v : value) : bool :=
  match v with
  | VNone => false
  | VBool b => b
  | VInt n => negb (n =? 0)
  | VFloat f => float_nonzero f
  | VStr s => negb (String.eqb s EmptyString)
  | VList l => match l with [] => false | _ => true end
  | VDict d => negb (bool_decide (d = ∅))
  end.

(** ** Exceptions *)

(** An exception object: the classes along the method resolution order of
    its type (most derived first), its arguments and its [__cause__].  A
    class is known by the name the code uses for it. *)
Inductive exn :=
  | Exn (mro : list string) (args : list value) (cause : option exn).

Definition exc_mro (e : exn) : list string := let 'Exn m _ _ := e in m.

(** [isinstance(e, cls)] *)
Definition isinstance (e : exn) (cls : string) : bool :=
  bool_decide (cls ∈ exc_mro e).

(** [except (c1, c2, ...)] matches an instance of any listed class. *)
Definition except_matches (classes : list string) (e : exn) : bool :=
  existsb (isinstance e) classes.

Definition KeyError (key : string) : exn :=
  Exn ["KeyError"; "LookupError"; "Exception"; "BaseException"; "object"]
      [VStr key] None.

Definition ConfigEntryNotReady_mro : list string :=
  ["ConfigEntryNotReady"; "IntegrationError"; "HomeAssistantError";
   "Exception"; "BaseException"; "object"].

(** [raise ConfigEntryNotReady from exc] *)
Definition ConfigEntryNotReady_from (exc : exn) : exn :=
  Exn ConfigEntryNotReady_mro [] (Some exc).

(** How a call ends. *)
Inductive result (A : Type) :=
  | Returns (a : A)
  | Raises (e : exn).
Arguments Returns {A} a.
Arguments Raises {A} e.

(** ** The host, the config entry and the collaborators *)

(** A reference to a [PioneerAVR] object. *)
Definition client : Type := nat.

(** Calls into the [aiopioneer] client. *)
Inductive client_call :=
  | New (host port timeout scan_interval : value) (params : dict)
  | Connect (pioneer : client)
  | QueryDeviceInfo (pioneer : client)
  | QueryZones (pioneer : client)
  | SetSourceDict (pioneer : client) (sources : value)
  | BuildSourceDict (pioneer : client)
  | Shutdown (pioneer : client).

Inductive log_level := DEBUG | ERROR.

(** The keyword arguments of [device_registry.async_get_or_create]. *)
Record device := {
  config_entry_id : string;
  connections : list (string * value);
  identifiers : list (string * option string);
  manufacturer : string;
  device_name : value;
  device_model : value;
  sw_version : value;
}.

(** What the module does to its surroundings, in the order it does it:
    a log record; a call into the client, with the exception it raised, if
    any; [async_get_or_create] on the device registry; a task created for
    [async_forward_entry_setup]; [add_update_listener] with
    [_update_listener]; [async_forward_entry_unload] started;
    [async_dispatcher_send]. *)
Inductive effect :=
  | Logged (level : log_level) (msg : string) (args : list value)
  | Called (c : client_call) (raised : option exn)
  | DeviceRegistered (d : device)
  | SetupForwarded (entry_id component : string)
  | UpdateListenerAdded (entry_id : string)
  | UnloadForwarded (entry_id component : string)
  | SignalSent (topic : string) (payload : option dict).

(** [homeassistant.const] and [device_registry] constants. *)
Definition CONF_HOST : string := "host".
Definition CONF_PORT : string := "port".
Definition CONF_NAME : string := "name".
Definition CONF_TIMEOUT : string := "timeout".
Definition CONF_SCAN_INTERVAL : string := "scan_interval".
Definition CONNECTION_NETWORK_MAC : string := "mac".

(** The constants the module imports from [.const] and [aiopioneer.param];
    their values are not fixed here.  [OPTIONS_DEFAULTS] is assembled
    below from the three default values and [OTHER_DEFAULTS]. *)
Record Consts := {
  DOMAIN : string;
  PLATFORMS : list string;
  PIONEER_OPTIONS_UPDATE : string;
  CONF_SOURCES : string;
  DEFAULT_SCAN_INTERVAL : value;
  DEFAULT_TIMEOUT : value;
  DEFAULT_SOURCES : value;
  OTHER_DEFAULTS : dict;
  PARAMS_ALL : list string;
}.

(** Modelled from the spec: [OPTIONS_DEFAULTS] of [const.py], which is not
    among the sources at hand.  The spec has the options include the scan
    interval, the timeout and the JSON-encoded source mapping, so the
    defaults carry these three keys; what else they carry is left open. *)
Definition OPTIONS_DEFAULTS (K : Consts) : dict :=
  <[CONF_SCAN_INTERVAL := DEFAULT_SCAN_INTERVAL K]>
    (<[CONF_TIMEOUT := DEFAULT_TIMEOUT K]>
       (<[CONF_SOURCES K := DEFAULT_SOURCES K]> (OTHER_DEFAULTS K))).

(** A config entry, as the host hands it over; [options] may be [None].

    Modelled from the spec: what [entry.data] holds is decided by the config
    flow, which is not among the sources at hand.  The spec's Config Entry
    is a record with host, port and name, so [entry_data], the [data]
    mapping, carries these three keys; what else it carries is left open. *)
Record ConfigEntry := {
  entry_id : string;
  unique_id : option string;
  host : value;
  port : value;
  name : value;
  other_data : dict;
  options : option dict;
}.

Definition entry_data (entry : ConfigEntry) : dict :=
  <[CONF_HOST := host entry]>
    (<[CONF_PORT := port entry]>
       (<[CONF_NAME := name entry]> (other_data entry))).

(** The collaborators during one run: [json.loads], the [aiopioneer]
    client (what each call does when it is made, and the attributes read
    back) and the host's platform unloading.  Any of the awaited calls may
    raise.  Within a run no call is made twice, so what a call does is given
    per call. *)
Record Env := {
  json_loads : value → result value;
  PioneerAVR : value → value → value → value → dict → result client;
  connect : client → result unit;
  query_device_info : client → result unit;
  query_zones : client → result unit;
  set_source_dict : client → value → result unit;
  build_source_dict : client → result unit;
  shutdown : client → result unit;
  model : client → value;
  software_version : client → value;
  mac_addr : client → value;
  async_forward_entry_unload : string → string → result bool;
}.

(** The state the coroutines act on: [hass.data], as far as it maps a
    domain to its per-entry clients, and the effects so far. *)
Record world := {
  hass_data : gmap string (gmap string client);
  effects : list effect;
}.

(** ** The monad of coroutines: state and exceptions *)

Definition M (A : Type) : Type := world → result A * world.

#[global] Instance M_ret : MRet M := λ A a w, (Returns a, w).
#[global] Instance M_bind : MBind M := λ A B f m w,
  match m w with
  | (Returns a, w') => f a w'
  | (Raises e, w') => (Raises e, w')
  end.

Definition raise {A} (e : exn) : M A := λ w, (Raises e, w).

(** [try: body except (classes): handler]; [None] is the bare [except:]. *)
Definition try_except {A} (body : M A) (classes : option (list string))
    (handler : exn → M A) : M A := λ w,
  match body w with
  | (Returns a, w') => (Returns a, w')
  | (Raises e, w') =>
      if default true (flip except_matches e <$> classes)
      then handler e w'
      else (Raises e, w')
  end.

(** The world with further effects recorded. *)
Definition record (evs : list effect) (w : world) : world :=
  {| hass_data := hass_data w; effects := effects w ++ evs |}.

Definition emit (ev : effect) : M unit := λ w, (Returns tt, record [ev] w).

Definition exception_of {A} (r : result A) : option exn :=
  match r with
  | Returns _ => None
  | Raises e => Some e
  end.

(** A call into the client, which returns or raises as [r] says. *)
Definition invoke {A} (c : client_call) (r : result A) : M A := λ w,
  (r, record [Called c (exception_of r)] w).

Definition of_result {A} (r : result A) : M A := λ w, (r, w).

(** [d[key]] *)
Definition getitem {V} (d : gmap string V) (key : string) : M V :=
  match d !! key with
  | Some v => mret v
  | None => raise (KeyError key)
  end.

Definition get_data : M (gmap string (gmap string client)) := λ w,
  (Returns (hass_data w), w).

Definition put_data (d : gmap string (gmap string client)) : M unit := λ w,
  (Returns tt, {| hass_data := d; effects := effects w |}).

(** [str(x)] for a value that is a [str] or [None]. *)
Definition str_of (x : option string) : string := default "None" x.

(** [{**d1, **d2}]: the entries of [d1], then those of [d2] written over
    them. *)
Definition dict_unpack (d1 d2 : dict) : dict := d2 ∪ d1.

(** [asyncio.gather] over a list of awaitables: each is started, in order; the
    results come back in that order, or the exception of the first one
    that raised.  The interleaving of the awaitables is not modelled. *)
Fixpoint run_all {A} (aws : list (M A)) (w : world) : list (result A) * world :=
  match aws with
  | [] => ([], w)
  | m :: rest =>
      let '(r, w1) := m w in
      let '(rs, w2) := run_all rest w1 in
      (r :: rs, w2)
  end.

Fixpoint collect {A} (rs : list (result A)) : result (list A) :=
  match rs with
  | [] => Returns []
  | Raises e :: _ => Raises e
  | Returns a :: rest =>
      match collect rest with
      | Returns l => Returns (a :: l)
      | Raises e => Raises e
      end
  end.

Definition gather {A} (aws : list (M A)) : M (list A) := λ w,
  let '(rs, w') := run_all aws w in (collect rs, w').

(** [all(iterable)] on booleans. *)
Definition all (bs : list bool) : bool := forallb id bs.

(** [for x in xs: body(x)] *)
Fixpoint for_each {A} (xs : list A) (body : A → M unit) : M unit :=
  match xs with
  | [] => mret tt
  | x :: rest => body x ;; for_each rest body
  end.

Section Lifecycle.

Variable K : Consts.
Variable env : Env.

(** *** [async_setup] *)

(** [hass.data.setdefault(DOMAIN, {})] and [return True]. *)
Definition async_setup : M bool :=
  emit (Logged DEBUG ">> async_setup()" []) ;;
  d ← get_data;
  match d !! DOMAIN K with
  | Some _ => mret tt
  | None => put_data (<[DOMAIN K := ∅]> d)
  end ;;
  mret true.

(** *** [async_setup_entry] *)

(** [entry.options if entry.options else {}] *)
Definition entry_options_of (entry : ConfigEntry) : dict :=
  match options entry with
  | Some d => if truthy (VDict d) then d else ∅
  | None => ∅
  end.

(** Line 62: [{**OPTIONS_DEFAULTS, **entry_options}] *)
Definition options_of (entry : ConfigEntry) : dict :=
  dict_unpack (OPTIONS_DEFAULTS K) (entry_options_of entry).

(** The [options] argument of the debug record. *)
Definition options_value (entry : ConfigEntry) : value :=
  match options entry with
  | Some d => VDict d
  | None => VNone
  end.

(** The record of line 68. *)
Definition invalid_sources_record (v : value) : effect :=
  Logged ERROR "invalid sources specified: %s" [v].

(** Lines 65-69: decode the sources option; whatever goes wrong is logged
    and answered with the empty mapping. *)
Definition decode_sources (opts : dict) : M value :=
  try_except
    (v ← getitem opts (CONF_SOURCES K); of_result (json_loads env v))
    None
    (λ _,
       v ← getitem opts (CONF_SOURCES K);
       emit (invalid_sources_record v) ;;
       mret (VDict ∅)).

(** Line 70: [{k: entry_options[k] for k in PARAMS_ALL if k in entry_options}] *)
Definition select_params (entry_options : dict) : dict :=
  foldl (λ acc k,
           match entry_options !! k with
           | Some v => <[k := v]> acc
           | None => acc
           end) ∅ (PARAMS_ALL K).

(** Lines 73-86, the body of the [try]. *)
Definition initialise (host port timeout scan_interval : value)
    (params : dict) (sources : value) : M client :=
  pioneer ← invoke (New host port timeout scan_interval params)
                   (PioneerAVR env host port timeout scan_interval params);
  invoke (Connect pioneer) (connect env pioneer) ;;
  invoke (QueryDeviceInfo pioneer) (query_device_info env pioneer) ;;
  invoke (QueryZones pioneer) (query_zones env pioneer) ;;
  (if truthy sources
   then invoke (SetSourceDict pioneer sources)
               (set_source_dict env pioneer sources)
   else invoke (BuildSourceDict pioneer) (build_source_dict env pioneer)) ;;
  mret pioneer.

Definition not_ready_classes : list string :=
  ["asyncio.TimeoutError"; "ValueError"; "AttributeError"].

(** Lines 72-88. *)
Definition initialise_or_not_ready (host port timeout scan_interval : value)
    (params : dict) (sources : value) : M client :=
  try_except
    (initialise host port timeout scan_interval params sources)
    (Some not_ready_classes)
    (λ exc, raise (ConfigEntryNotReady_from exc)).

(** Line 90: [hass.data[DOMAIN][entry.entry_id] = pioneer] *)
Definition store_client (entry : ConfigEntry) (pioneer : client) : M unit :=
  d ← get_data;
  per_entry ← getitem d (DOMAIN K);
  put_data (<[DOMAIN K := <[entry_id entry := pioneer]> per_entry]> d).

(** Lines 93-106. *)
Definition register_device (entry : ConfigEntry) (name : value)
    (pioneer : client) : M unit :=
  let model := model env pioneer in
  let software_version := software_version env pioneer in
  let mac_addr := mac_addr env pioneer in
  emit (DeviceRegistered
          {| config_entry_id := entry_id entry;
             connections := [(CONNECTION_NETWORK_MAC, mac_addr)];
             identifiers := [(DOMAIN K, unique_id entry)];
             manufacturer := "Pioneer";
             device_name := name;
             device_model := model;
             sw_version := software_version |}).

(** Lines 90-115: what follows a successful initialisation. *)
Definition finish_setup (entry : ConfigEntry) (name : value)
    (pioneer : client) : M bool :=
  store_client entry pioneer ;;
  register_device entry name pioneer ;;
  for_each (PLATFORMS K)
    (λ component, emit (SetupForwarded (entry_id entry) component)) ;;
  emit (UpdateListenerAdded (entry_id entry)) ;;
  mret true.

(** Lines 70-115: setup from the decoded sources on. *)
Definition setup_with_sources (entry : ConfigEntry)
    (host port name timeout scan_interval sources : value) : M bool :=
  let params := select_params (entry_options_of entry) in
  pioneer ← initialise_or_not_ready host port timeout scan_interval
                                    params sources;
  finish_setup entry name pioneer.

(** The record of lines 49-54. *)
Definition setup_entry_record (entry : ConfigEntry) : effect :=
  Logged DEBUG ">> async_setup_entry(entry_id=%s, data=%s, options=%s)"
    [VStr (entry_id entry); VDict (entry_data entry); options_value entry].

Definition async_setup_entry (entry : ConfigEntry) : M bool :=
  emit (setup_entry_record entry) ;;
  host ← getitem (entry_data entry) CONF_HOST;
  port ← getitem (entry_data entry) CONF_PORT;
  name ← getitem (entry_data entry) CONF_NAME;
  let options := options_of entry in
  scan_interval ← getitem options CONF_SCAN_INTERVAL;
  timeout ← getitem options CONF_TIMEOUT;
  sources ← decode_sources options;
  setup_with_sources entry host port name timeout scan_interval sources.

(** *** [_update_listener] *)

(** The topic [f"{PIONEER_OPTIONS_UPDATE}-{entry.unique_id}"]. *)
Definition options_update_topic (entry : ConfigEntry) : string :=
  PIONEER_OPTIONS_UPDATE K +:+ "-" +:+ str_of (unique_id entry).

Definition _update_listener (entry : ConfigEntry) : M unit :=
  emit (SignalSent (options_update_topic entry) (options entry)).

(** *** [async_unload_entry] *)

Definition forward_entry_unload (entry : ConfigEntry) (component : string)
    : M bool := λ w,
  (async_forward_entry_unload env (entry_id entry) component,
   record [UnloadForwarded (entry_id entry) component] w).

(** [d.pop(key)] on [hass.data[DOMAIN]] *)
Definition pop_client (entry : ConfigEntry) : M client :=
  d ← get_data;
  per_entry ← getitem d (DOMAIN K);
  pioneer ← getitem per_entry (entry_id entry);
  put_data (<[DOMAIN K := delete (entry_id entry) per_entry]> d) ;;
  mret pioneer.

(** The record of line 128. *)
Definition unload_entry_record : effect :=
  Logged DEBUG ">> async_unload_entry()" [].

Definition async_unload_entry (entry : ConfigEntry) : M bool :=
  emit unload_entry_record ;;
  results ← gather (map (forward_entry_unload entry) (PLATFORMS K));
  let unload_ok := all results in
  d ← get_data;
  per_entry ← getitem d (DOMAIN K);
  pioneer ← getitem per_entry (entry_id entry);
  invoke (Shutdown pioneer) (shutdown env pioneer) ;;
  (if unload_ok then pop_client entry ;; mret tt else mret tt) ;;
  mret unload_ok.

End Lifecycle.

(** ** [json.loads], for running the model

    The coroutines take [json.loads] from their environment, so what is
    proved of them holds for any decoder.  This one follows CPython's
    scanner and serves to run them on concrete entries.  Nesting is followed
    to any depth, where CPython gives up at its recursion limit. *)
Module Json.

Local Open Scope char_scope.
Local Open Scope Z_scope.

Definition JSONDecodeError : exn :=
  Exn ["JSONDecodeError"; "ValueError"; "Exception"; "BaseException";
       "object"]%string [] None.

Definition TypeError : exn :=
  Exn ["TypeError"; "Exception"; "BaseException"; "object"]%string [] None.

Definition is_whitespace (c : ascii) : bool :=
  match c with
  | " " | "009" | "010" | "013" => true
  | _ => false
  end.

Fixpoint skip_whitespace (s : list ascii) : list ascii :=
  match s with
  | c :: r => if is_whitespace c then skip_whitespace r else s
  | [] => []
  end.

Definition code (c : ascii) : Z := Z.of_N (N_of_ascii c).
Definition chr (n : Z) : ascii := ascii_of_N (Z.to_N n).

Definition digit (c : ascii) : option Z :=
  let n := code c in
  if (48 <=? n) && (n <=? 57) then Some (n - 48) else None.

Definition hex_digit (c : ascii) : option Z :=
  let n := code c in
  if (48 <=? n) && (n <=? 57) then Some (n - 48)
  else if (97 <=? n) && (n <=? 102) then Some (n - 87)
  else if (65 <=? n) && (n <=? 70) then Some (n - 55)
  else None.

(** The leading run of digits, as their values, and what follows it. *)
Fixpoint digits (s : list ascii) : list Z * list ascii :=
  match s with
  | c :: r =>
      match digit c with
      | Some d => let '(ds, r') := digits r in (d :: ds, r')
      | None => ([], s)
      end
  | [] => ([], [])
  end.

Definition number_of (ds : list Z) : Z := foldl (λ acc d, 10 * acc + d) 0 ds.

(** The UTF-8 bytes of a code point. *)
Definition utf8 (n : Z) : list ascii :=
  if n <? 128 then [chr n]
  else if n <? 2048 then [chr (192 + n / 64); chr (128 + n mod 64)]
  else if n <? 65536 then
    [chr (224 + n / 4096); chr (128 + (n / 64) mod 64); chr (128 + n mod 64)]
  else
    [chr (240 + n / 262144); chr (128 + (n / 4096) mod 64);
     chr (128 + (n / 64) mod 64); chr (128 + n mod 64)].

(** Four hexadecimal digits. *)
Definition hex4 (s : list ascii) : option (Z * list ascii) :=
  match s with
  | a :: b :: c :: d :: r =>
      match hex_digit a, hex_digit b, hex_digit c, hex_digit d with
      | Some x1, Some x2, Some x3, Some x4 =>
          Some (((x1 * 16 + x2) * 16 + x3) * 16 + x4, r)
      | _, _, _, _ => None
      end
  | _ => None
  end.

(** What follows [\u]: one code point, or two escapes that form a
    surrogate pair. *)
Definition unicode_escape (s : list ascii) : option (Z * list ascii) :=
  match hex4 s with
  | Some (c, r) =>
      if (55296 <=? c) && (c <=? 56319) && (6 <? Z.of_nat (List.length r)) then
        match r with
        | "\" :: "u" :: r1 =>
            match hex4 r1 with
            | Some (c2, r2) =>
                if (56320 <=? c2) && (c2 <=? 57343)
                then Some (65536 + (c - 55296) * 1024 + (c2 - 56320), r2)
                else Some (c, r)
            | None => None
            end
        | _ => Some (c, r)
        end
      else Some (c, r)
  | None => None
  end.

(** The rest of a string literal, after its opening quote. *)
Fixpoint scanstring (n : nat) (s : list ascii) : option (list ascii * list ascii) :=
  match n with
  | O => None
  | S n' =>
      match s with
      | [] => None
      | "034" :: r => Some ([], r)
      | "\" :: e :: r =>
          let simple (c : ascii) :=
            match scanstring n' r with
            | Some (cs, r') => Some (c :: cs, r')
            | None => None
            end in
          match e with
          | "034" => simple "034"
          | "\" => simple "\"
          | "/" => simple "/"
          | "b" => simple "008"
          | "f" => simple "012"
          | "n" => simple "010"
          | "r" => simple "013"
          | "t" => simple "009"
          | "u" =>
              match unicode_escape r with
              | Some (c, r1) =>
                  match scanstring n' r1 with
                  | Some (cs, r') => Some ((utf8 c ++ cs)%list, r')
                  | None => None
                  end
              | None => None
              end
          | _ => None
          end
      | "\" :: [] => None
      | c :: r =>
          if code c <? 32 then None
          else match scanstring n' r with
               | Some (cs, r') => Some (c :: cs, r')
               | None => None
               end
      end
  end.

(** A number literal: the integer part, then a fraction and an exponent
    where they are complete. *)
Definition scan_number (s : list ascii) : option (value * list ascii) :=
  let '(negative, s1) :=
    match s with "-" :: r => (true, r) | _ => (false, s) end in
  let int_part :=
    match s1 with
    | "0" :: r => Some ([0], r)
    | _ => match digits s1 with
           | ([], _) => None
           | (ds, r) => Some (ds, r)
           end
    end in
  match int_part with
  | None => None
  | Some (ids, s2) =>
      let '(frac, s3) :=
        match s2 with
        | "." :: r =>
            match digits r with
            | ([], _) => (None, s2)
            | (fds, r') => (Some fds, r')
            end
        | _ => (None, s2)
        end in
      let exponent_digits (r : list ascii) (sign : Z) :=
        match digits r with
        | ([], _) => (None, s3)
        | (eds, r') => (Some (sign * number_of eds), r')
        end in
      let '(exp, s4) :=
        match s3 with
        | "e" :: "+" :: r | "E" :: "+" :: r => exponent_digits r 1
        | "e" :: "-" :: r | "E" :: "-" :: r => exponent_digits r (-1)
        | "e" :: r | "E" :: r => exponent_digits r 1
        | _ => (None, s3)
        end in
      match frac, exp with
      | None, None =>
          let n := number_of ids in
          Some (VInt (if negative then - n else n), s4)
      | _, _ =>
          let fds := default [] frac in
          Some (VFloat (FDec negative (number_of (ids ++ fds)%list)
                          (default 0 exp - Z.of_nat (List.length fds))), s4)
      end
  end.

Section Scanner.

Variable scan_once : list ascii → option (value * list ascii).

(** The members of an object, from the opening quote of a key on. *)
Fixpoint scan_members (n : nat) (acc : dict) (s : list ascii)
    : option (value * list ascii) :=
  match n with
  | O => None
  | S n' =>
      match s with
      | "034" :: r =>
          match scanstring (S (List.length r)) r with
          | Some (key, r1) =>
              match skip_whitespace r1 with
              | ":" :: r2 =>
                  match scan_once (skip_whitespace r2) with
                  | Some (v, r3) =>
                      let acc' := <[string_of_list_ascii key := v]> acc in
                      match skip_whitespace r3 with
                      | "}" :: r4 => Some (VDict acc', r4)
                      | "," :: r4 => scan_members n' acc' (skip_whitespace r4)
                      | _ => None
                      end
                  | None => None
                  end
              | _ => None
              end
          | None => None
          end
      | _ => None
      end
  end.

(** The elements of an array, from the first character of an element on;
    [acc] holds those read so far, last first. *)
Fixpoint scan_elements (n : nat) (acc : list value) (s : list ascii)
    : option (value * list ascii) :=
  match n with
  | O => None
  | S n' =>
      match scan_once s with
      | Some (v, r) =>
          match skip_whitespace r with
          | "]" :: r1 => Some (VList (rev (v :: acc)), r1)
          | "," :: r1 => scan_elements n' (v :: acc) (skip_whitespace r1)
          | _ => None
          end
      | None => None
      end
  end.

End Scanner.

(** One JSON term at the head of [s]. *)
Fixpoint scan_once (depth : nat) (s : list ascii) : option (value * list ascii) :=
  match depth with
  | O => None
  | S depth' =>
      match s with
      | "034" :: r =>
          match scanstring (S (List.length r)) r with
          | Some (cs, r') => Some (VStr (string_of_list_ascii cs), r')
          | None => None
          end
      | "{" :: r =>
          match skip_whitespace r with
          | "}" :: r1 => Some (VDict ∅, r1)
          | r1 => scan_members (scan_once depth') (List.length r1) ∅ r1
          end
      | "[" :: r =>
          match skip_whitespace r with
          | "]" :: r1 => Some (VList [], r1)
          | r1 => scan_elements (scan_once depth') (List.length r1) [] r1
          end
      | "n" :: "u" :: "l" :: "l" :: r => Some (VNone, r)
      | "t" :: "r" :: "u" :: "e" :: r => Some (VBool true, r)
      | "f" :: "a" :: "l" :: "s" :: "e" :: r => Some (VBool false, r)
      | "N" :: "a" :: "N" :: r => Some (VFloat FNaN, r)
      | "I" :: "n" :: "f" :: "i" :: "n" :: "i" :: "t" :: "y" :: r =>
          Some (VFloat (FInf false), r)
      | "-" :: "I" :: "n" :: "f" :: "i" :: "n" :: "i" :: "t" :: "y" :: r =>
          Some (VFloat (FInf true), r)
      | _ => scan_number s
      end
  end.

(** [json.loads(x)] *)
Definition loads (x : value) : result value :=
  match x with
  | VStr doc =>
      let s := list_ascii_of_string doc in
      match s with
      | "239" :: "187" :: "191" :: _ => Raises JSONDecodeError
      | _ =>
          match scan_once (S (List.length s)) (skip_whitespace s) with
          | Some (v, r) =>
              match skip_whitespace r with
              | [] => Returns v
              | _ => Raises JSONDecodeError
              end
          | None => Raises JSONDecodeError
          end
      end
  | _ => Raises TypeError
  end.

End Json.

(** ** Observing a run *)

(** What lines 63 and 64 read when the defaults are in place: the entry's
    own setting if it has one, else the default. *)
Definition scan_interval_of (K : Consts) (entry : ConfigEntry) : value :=
  default (DEFAULT_SCAN_INTERVAL K)
    (entry_options_of entry !! CONF_SCAN_INTERVAL).

Definition timeout_of (K : Consts) (entry : ConfigEntry) : value :=
  default (DEFAULT_TIMEOUT K) (entry_options_of entry !! CONF_TIMEOUT).

(** The sources option line 66 hands to [json.loads]. *)
Definition sources_option_of (K : Consts) (entry : ConfigEntry) : option value :=
  options_of K entry !! CONF_SOURCES K.

Definition outcome {A} (m : M A) (w : world) : result A := (m w).1.
Definition after {A} (m : M A) (w : world) : world := (m w).2.

(** The effects a run from [w] to [w'] added. *)
Definition effects_since (w w' : world) : list effect :=
  drop (List.length (effects w)) (effects w').

(** The effects of running [m] in [w]. *)
Definition effects_of {A} (m : M A) (w : world) : list effect :=
  effects_since w (after m w).

(** The calls into the client among some effects, each with the exception
    it raised, if any. *)
Definition client_calls (evs : list effect) : list (client_call * option exn) :=
  omap (λ ev, match ev with
              | Called c raised => Some (c, raised)
              | _ => None
              end) evs.

Definition is_set_source_dict (c : client_call) : bool :=
  match c with SetSourceDict _ _ => true | _ => false end.

Definition is_build_source_dict (c : client_call) : bool :=
  match c with BuildSourceDict _ => true | _ => false end.

(** The calls of the initialisation sequence: all but [shutdown]. *)
Definition is_init_call (c : client_call) : bool :=
  match c with Shutdown _ => false | _ => true end.

(** How often a kind of call was made. *)
Definition times (kind : client_call → bool) (evs : list effect) : nat :=
  List.length (List.filter (λ cr, kind cr.1) (client_calls evs)).

(** The exception raised by a call of the initialisation sequence, if one
    of them raised. *)
Definition init_call_raised (evs : list effect) : option exn :=
  head (omap (λ cr, if is_init_call cr.1 then cr.2 else None)
          (client_calls evs)).

(** What leaves [async_setup_entry] when the initialisation raised [e]:
    lines 87-88. *)
Definition surfaced (e : exn) : exn :=
  if except_matches not_ready_classes e then ConfigEntryNotReady_from e else e.

(** The outcome of lines 65-69 for an entry: the sources to go on with and
    what was logged. *)
Definition decoded (K : Consts) (env : Env) (entry : ConfigEntry)
    : value * list effect :=
  match sources_option_of K entry with
  | Some v =>
      match json_loads env v with
      | Returns sources => (sources, [])
      | Raises _ => (VDict ∅, [invalid_sources_record v])
      end
  | None => (VDict ∅, [])
  end.

(** The last step of the initialisation. *)
Definition source_call (p : client) (sources : value) : client_call :=
  if truthy sources then SetSourceDict p sources else BuildSourceDict p.

Definition source_step (env : Env) (p : client) (sources : value) : result unit :=
  if truthy sources then set_source_dict env p sources
  else build_source_dict env p.

(** The runs of the initialisation: how it ends, and the calls it makes
    with their outcomes.  It stops at the first call that raises. *)
Inductive init_run (env : Env) (host port timeout scan_interval : value)
    (params : dict) (sources : value)
    : result client → list (client_call * option exn) → Prop :=
  | run_new_raises e :
      PioneerAVR env host port timeout scan_interval params = Raises e →
      init_run env host port timeout scan_interval params sources (Raises e)
        [(New host port timeout scan_interval params, Some e)]
  | run_connect_raises p e :
      PioneerAVR env host port timeout scan_interval params = Returns p →
      connect env p = Raises e →
      init_run env host port timeout scan_interval params sources (Raises e)
        [(New host port timeout scan_interval params, None);
         (Connect p, Some e)]
  | run_query_device_info_raises p e :
      PioneerAVR env host port timeout scan_interval params = Returns p →
      connect env p = Returns tt →
      query_device_info env p = Raises e →
      init_run env host port timeout scan_interval params sources (Raises e)
        [(New host port timeout scan_interval params, None);
         (Connect p, None); (QueryDeviceInfo p, Some e)]
  | run_query_zones_raises p e :
      PioneerAVR env host port timeout scan_interval params = Returns p →
      connect env p = Returns tt →
      query_device_info env p = Returns tt →
      query_zones env p = Raises e →
      init_run env host port timeout scan_interval params sources (Raises e)
        [(New host port timeout scan_interval params, None);
         (Connect p, None); (QueryDeviceInfo p, None);
         (QueryZones p, Some e)]
  | run_sources_raises p e :
      PioneerAVR env host port timeout scan_interval params = Returns p →
      connect env p = Returns tt →
      query_device_info env p = Returns tt →
      query_zones env p = Returns tt →
      source_step env p sources = Raises e →
      init_run env host port timeout scan_interval params sources (Raises e)
        [(New host port timeout scan_interval params, None);
         (Connect p, None); (QueryDeviceInfo p, None);
         (QueryZones p, None); (source_call p sources, Some e)]
  | run_complete p :
      PioneerAVR env host port timeout scan_interval params = Returns p →
      connect env p = Returns tt →
      query_device_info env p = Returns tt →
      query_zones env p = Returns tt →
      source_step env p sources = Returns tt →
      init_run env host port timeout scan_interval params sources (Returns p)
        [(New host port timeout scan_interval params, None);
         (Connect p, None); (QueryDeviceInfo p, None);
         (QueryZones p, None); (source_call p sources, None)].

(** The effects that record some calls. *)
Definition called (cs : list (client_call * option exn)) : list effect :=
  map (λ cr, Called cr.1 cr.2) cs.

(** What lines 90-113 add to the effects once the client [p] is there. *)
Definition setup_effects (K : Consts) (env : Env) (entry : ConfigEntry)
    (p : client) : list effect :=
  DeviceRegistered
    {| config_entry_id := entry_id entry;
       connections := [(CONNECTION_NETWORK_MAC, mac_addr env p)];
       identifiers := [(DOMAIN K, unique_id entry)];
       manufacturer := "Pioneer";
       device_name := name entry;
       device_model := model env p;
       sw_version := software_version env p |}
  :: map (SetupForwarded (entry_id entry)) (PLATFORMS K)
  ++ [UpdateListenerAdded (entry_id entry)].

(** Whether a call returned, and whether a platform unload returned
    [True]. *)
Definition has_returned {A} (r : result A) : bool :=
  match r with Returns _ => true | Raises _ => false end.

Definition succeeded (r : result bool) : bool :=
  match r with Returns b => b | Raises _ => false end.

(** Whether construction, [connect], [query_device_info] and
    [query_zones] all return for this entry, so that the initialisation
    gets as far as the sources. *)
Definition preceding_calls_return (K : Consts) (env : Env)
    (entry : ConfigEntry) : bool :=
  match PioneerAVR env (host entry) (port entry) (timeout_of K entry)
          (scan_interval_of K entry)
          (select_params K (entry_options_of entry)) with
  | Returns p =>
      has_returned (connect env p) && has_returned (query_device_info env p)
      && has_returned (query_zones env p)
  | Raises _ => false
  end.

(** Whether the whole initialisation returns for this entry when it goes
    on with [sources]. *)
Definition initialisation_returns (K : Consts) (env : Env)
    (entry : ConfigEntry) (sources : value) : bool :=
  match PioneerAVR env (host entry) (port entry) (timeout_of K entry)
          (scan_interval_of K entry)
          (select_params K (entry_options_of entry)) with
  | Returns p =>
      has_returned (connect env p) && has_returned (query_device_info env p)
      && has_returned (query_zones env p)
      && has_returned (source_step env p sources)
  | Raises _ => false
  end.

(** Log records and calls into the client, as opposed to what setup does
    to the host once the client is there. *)
Definition is_log_or_call (ev : effect) : bool :=
  match ev with
  | Logged _ _ _ | Called _ _ => true
  | _ => false
  end.

(** What the host answers to the unloading of each platform of an
    entry; whether all of these calls return, and whether all return
    [True]. *)
Definition unload_results (K : Consts) (env : Env) (entry : ConfigEntry)
    : list (result bool) :=
  map (async_forward_entry_unload env (entry_id entry)) (PLATFORMS K).

Definition platform_unloads_return (K : Consts) (env : Env)
    (entry : ConfigEntry) : bool :=
  forallb has_returned (unload_results K env entry).

Definition platform_unloads_succeed (K : Consts) (env : Env)
    (entry : ConfigEntry) : bool :=
  forallb succeeded (unload_results K env entry).

(** The client stored for an entry: [hass.data[DOMAIN][entry_id]], if both
    keys are there. *)
Definition stored_client (K : Consts) (entry : ConfigEntry) (w : world)
    : option client :=
  hass_data w !! DOMAIN K ≫= λ per_entry, per_entry !! entry_id entry.

(** ** A sample installation *)
Module Sample.

Definition consts : Consts :=
  {| DOMAIN := "pioneer_async";
     PLATFORMS := ["media_player"];
     PIONEER_OPTIONS_UPDATE := "pioneer_options_update";
     CONF_SOURCES := "sources";
     DEFAULT_SCAN_INTERVAL := VInt 60;
     DEFAULT_TIMEOUT := VInt 2;
     DEFAULT_SOURCES := VStr "{}";
     OTHER_DEFAULTS := ∅;
     PARAMS_ALL := ["ignored_zones"; "command_delay"; "max_volume"] |}.

Definition asyncio_TimeoutError : exn :=
  Exn ["asyncio.TimeoutError"; "Exception"; "BaseException"; "object"] [] None.

Definition ConnectionRefusedError : exn :=
  Exn ["ConnectionRefusedError"; "ConnectionError"; "OSError"; "Exception";
       "BaseException"; "object"] [] None.

(** Receivers that answer every call; the client for the host [den] is
    object [8], any other is object [7]. *)
Definition receiver : Env :=
  {| json_loads := Json.loads;
     PioneerAVR := λ host _ _ _ _,
       if String.eqb (match host with VStr h => h | _ => EmptyString end) "den"
       then Returns 8%nat else Returns 7%nat;
     connect := λ _, Returns tt;
     query_device_info := λ _, Returns tt;
     query_zones := λ _, Returns tt;
     set_source_dict := λ _ _, Returns tt;
     build_source_dict := λ _, Returns tt;
     shutdown := λ _, Returns tt;
     model := λ _, VStr "VSX-930";
     software_version := λ _, VStr "1.0";
     mac_addr := λ _, VStr "00:e0:36:00:00:01";
     async_forward_entry_unload := λ _ _, Returns true |}.

(** The same receiver when [connect] fails with [exc]. *)
Definition unreachable (exc : exn) : Env :=
  {| json_loads := Json.loads;
     PioneerAVR := PioneerAVR receiver;
     connect := λ _, Raises exc;
     query_device_info := query_device_info receiver;
     query_zones := query_zones receiver;
     set_source_dict := set_source_dict receiver;
     build_source_dict := build_source_dict receiver;
     shutdown := shutdown receiver;
     model := model receiver;
     software_version := software_version receiver;
     mac_addr := mac_addr receiver;
     async_forward_entry_unload := async_forward_entry_unload receiver |}.

(** The receiver on a host whose media player platform refuses to
    unload. *)
Definition stuck_platform : Env :=
  {| json_loads := Json.loads;
     PioneerAVR := PioneerAVR receiver;
     connect := connect receiver;
     query_device_info := query_device_info receiver;
     query_zones := query_zones receiver;
     set_source_dict := set_source_dict receiver;
     build_source_dict := build_source_dict receiver;
     shutdown := shutdown receiver;
     model := model receiver;
     software_version := software_version receiver;
     mac_addr := mac_addr receiver;
     async_forward_entry_unload := λ _ _, Returns false |}.

(** An entry for the receiver at [avr:8102] with the given options. *)
Definition entry_with (opts : option dict) : ConfigEntry :=
  {| entry_id := "0123456789abcdef";
     unique_id := Some "avr:8102";
     host := VStr "avr";
     port := VInt 8102;
     name := VStr "Pioneer AVR";
     other_data := ∅;
     options := opts |}.

(** [s] between double quotes. *)
Definition quoted (s : string) : string :=
  String "034" (s +:+ String "034" EmptyString).

(** The JSON text of a mapping with the one entry [dvd] to [04]. *)
Definition one_source : string :=
  "{" +:+ quoted "dvd" +:+ ": " +:+ quoted "04" +:+ "}".

Definition sources_option (doc : string) : option dict :=
  Some (<["sources" := VStr doc]> (<["max_volume" := VInt 100]>
         (<["timeout" := VInt 5]> ∅))).

(** A second entry, for another receiver. *)
Definition other_entry : ConfigEntry :=
  {| entry_id := "fedcba9876543210";
     unique_id := Some "den:8102";
     host := VStr "den";
     port := VInt 8102;
     name := VStr "Den AVR";
     other_data := ∅;
     options := None |}.

(** The host right after start-up, and after [async_setup]. *)
Definition fresh : world := {| hass_data := ∅; effects := [] |}.
Definition ready : world := after (async_setup consts) fresh.

End Sample.

(** ** Further observations and faulty collaborators *)


(** [e.args] and [e.__cause__] *)
Definition exc_args (e : exn) : list value := let 'Exn _ a _ := e in a.
Definition exc_cause (e : exn) : option exn := let 'Exn _ _ c := e in c.

(** The platform unloads started among some effects, in order, each as
    entry id and platform. *)
Definition unload_forwards (evs : list effect) : list (string * string) :=
  omap (λ ev, match ev with
              | UnloadForwarded id component => Some (id, component)
              | _ => None
              end) evs.

(** What was done to the host besides logging and calling the client. *)
Definition host_effects (evs : list effect) : list effect :=
  List.filter (λ ev, negb (is_log_or_call ev)) evs.

Module Faulty.

Definition ValueError : exn :=
  Exn ["ValueError"; "Exception"; "BaseException"; "object"] [] None.

(** The sample receiver on a host whose platform unloading raises. *)
Definition platform_raises (exc : exn) : Env :=
  {| json_loads := Json.loads;
     PioneerAVR := PioneerAVR Sample.receiver;
     connect := connect Sample.receiver;
     query_device_info := query_device_info Sample.receiver;
     query_zones := query_zones Sample.receiver;
     set_source_dict := set_source_dict Sample.receiver;
     build_source_dict := build_source_dict Sample.receiver;
     shutdown := shutdown Sample.receiver;
     model := model Sample.receiver;
     software_version := software_version Sample.receiver;
     mac_addr := mac_addr Sample.receiver;
     async_forward_entry_unload := λ _ _, Raises exc |}.

(** The sample receiver when its shutdown raises. *)
Definition shutdown_raises (exc : exn) : Env :=
  {| json_loads := Json.loads;
     PioneerAVR := PioneerAVR Sample.receiver;
     connect := connect Sample.receiver;
     query_device_info := query_device_info Sample.receiver;
     query_zones := query_zones Sample.receiver;
     set_source_dict := set_source_dict Sample.receiver;
     build_source_dict := build_source_dict Sample.receiver;
     shutdown := λ _, Raises exc;
     model := model Sample.receiver;
     software_version := software_version Sample.receiver;
     mac_addr := mac_addr Sample.receiver;
     async_forward_entry_unload :=
       async_forward_entry_unload Sample.receiver |}.

(** The sample constants with the parameter names in another order and one
    of them twice. *)
Definition shuffled_consts : Consts :=
  {| DOMAIN := DOMAIN Sample.consts;
     PLATFORMS := PLATFORMS Sample.consts;
     PIONEER_OPTIONS_UPDATE := PIONEER_OPTIONS_UPDATE Sample.consts;
     CONF_SOURCES := CONF_SOURCES Sample.consts;
     DEFAULT_SCAN_INTERVAL := DEFAULT_SCAN_INTERVAL Sample.consts;
     DEFAULT_TIMEOUT := DEFAULT_TIMEOUT Sample.consts;
     DEFAULT_SOURCES := DEFAULT_SOURCES Sample.consts;
     OTHER_DEFAULTS := OTHER_DEFAULTS Sample.consts;
     PARAMS_ALL :=
       ["max_volume"; "command_delay"; "max_volume"; "ignored_zones"] |}.

(** An entry without a unique id. *)
Definition anonymous_entry : ConfigEntry :=
  {| entry_id := "00000000000000aa";
     unique_id := None;
     host := VStr "attic";
     port := VInt 8102;
     name := VStr "Attic AVR";
     other_data := ∅;
     options := Some ∅ |}.

End Faulty.

(** ** Dictionaries of an entry *)

Lemma entry_data_host entry : entry_data entry !! CONF_HOST = Some (host entry).
Proof. unfold entry_data. by rewrite lookup_insert_eq. Qed.

Lemma entry_data_port entry : entry_data entry !! CONF_PORT = Some (port entry).
Proof.
  unfold entry_data. rewrite lookup_insert_ne by done.
  by rewrite lookup_insert_eq.
Qed.

Lemma entry_data_name entry : entry_data entry !! CONF_NAME = Some (name entry).
Proof.
  unfold entry_data. do 2 (rewrite lookup_insert_ne by done).
  by rewrite lookup_insert_eq.
Qed.

Lemma dict_unpack_lookup (d1 d2 : dict) k :
  dict_unpack d1 d2 !! k =
    match d2 !! k with Some v => Some v | None => d1 !! k end.
Proof.
  unfold dict_unpack. rewrite lookup_union.
  destruct (d2 !! k), (d1 !! k); done.
Qed.

Lemma options_of_lookup K entry k :
  options_of K entry !! k =
    match entry_options_of entry !! k with
    | Some v => Some v
    | None => OPTIONS_DEFAULTS K !! k
    end.
Proof. apply dict_unpack_lookup. Qed.

Lemma defaults_scan_interval K :
  OPTIONS_DEFAULTS K !! CONF_SCAN_INTERVAL = Some (DEFAULT_SCAN_INTERVAL K).
Proof. unfold OPTIONS_DEFAULTS. by rewrite lookup_insert_eq. Qed.

Lemma defaults_timeout K :
  OPTIONS_DEFAULTS K !! CONF_TIMEOUT = Some (DEFAULT_TIMEOUT K).
Proof.
  unfold OPTIONS_DEFAULTS. rewrite lookup_insert_ne by done.
  by rewrite lookup_insert_eq.
Qed.

Lemma defaults_sources K : is_Some (OPTIONS_DEFAULTS K !! CONF_SOURCES K).
Proof.
  unfold OPTIONS_DEFAULTS.
  destruct (decide (CONF_SCAN_INTERVAL = CONF_SOURCES K)) as [<-|?].
  { rewrite lookup_insert_eq. eauto. }
  rewrite lookup_insert_ne by done.
  destruct (decide (CONF_TIMEOUT = CONF_SOURCES K)) as [<-|?].
  { rewrite lookup_insert_eq. eauto. }
  rewrite lookup_insert_ne by done. rewrite lookup_insert_eq. eauto.
Qed.

Lemma options_of_scan_interval K entry :
  options_of K entry !! CONF_SCAN_INTERVAL = Some (scan_interval_of K entry).
Proof.
  unfold scan_interval_of.
  rewrite options_of_lookup, defaults_scan_interval.
  by destruct (entry_options_of entry !! CONF_SCAN_INTERVAL).
Qed.

Lemma options_of_timeout K entry :
  options_of K entry !! CONF_TIMEOUT = Some (timeout_of K entry).
Proof.
  unfold timeout_of.
  rewrite options_of_lookup, defaults_timeout.
  by destruct (entry_options_of entry !! CONF_TIMEOUT).
Qed.

Lemma options_of_sources K entry : is_Some (sources_option_of K entry).
Proof.
  unfold sources_option_of. rewrite options_of_lookup.
  destruct (entry_options_of entry !! CONF_SOURCES K); [eauto|].
  apply defaults_sources.
Qed.


(** The dictionary comprehension of line 70 keeps the entries of
    [entry_options] under the keys of [PARAMS_ALL], and nothing else. *)
Lemma select_params_lookup K (entry_options : dict) k :
  select_params K entry_options !! k =
    if decide (k ∈ PARAMS_ALL K) then entry_options !! k else None.
Proof.
  unfold select_params.
  assert (∀ names (acc : dict),
    foldl (λ acc k, match entry_options !! k with
                    | Some v => <[k := v]> acc
                    | None => acc
                    end) acc names !! k =
      match (if decide (k ∈ names) then entry_options !! k else None) with
      | Some v => Some v
      | None => acc !! k
      end) as Hfold.
  { induction names as [|k' names IH]; intros acc; cbn [foldl].
    - case_decide as Hin; [by apply elem_of_nil in Hin | done].
    - rewrite IH.
      destruct (decide (k ∈ names)) as [Hin|Hout].
      + rewrite decide_True by set_solver.
        destruct (entry_options !! k) as [v|] eqn:Hk; [done|].
        destruct (entry_options !! k') as [v'|] eqn:Hk'; [|done].
        rewrite lookup_insert_ne; [done|]. by intros ->; simplify_eq.
      + destruct (decide (k = k')) as [->|Hne].
        * rewrite decide_True by set_solver.
          destruct (entry_options !! k') eqn:Hk; [|done].
          by rewrite lookup_insert_eq.
        * rewrite decide_False by (by intros [?|?]%elem_of_cons).
          destruct (entry_options !! k'); [|done].
          by rewrite lookup_insert_ne. }
  rewrite Hfold. rewrite lookup_empty.
  case_decide; [|done]. by destruct (entry_options !! k).
Qed.

Lemma select_params_filter K (entry_options : dict) :
  select_params K entry_options =
    filter (λ kv, kv.1 ∈ PARAMS_ALL K) entry_options.
Proof.
  apply map_eq. intros k. rewrite select_params_lookup.
  destruct (decide (k ∈ PARAMS_ALL K)) as [Hin|Hout].
  - destruct (entry_options !! k) as [v|] eqn:Hk; symmetry.
    + by apply map_lookup_filter_Some.
    + apply map_lookup_filter_None. left. done.
  - symmetry. apply map_lookup_filter_None. right. intros v _. done.
Qed.

(** ** Running the monad *)

Lemma record_record l1 l2 w : record l2 (record l1 w) = record (l1 ++ l2) w.
Proof. unfold record; simpl. by rewrite <- app_assoc. Qed.

Lemma record_nil w : record [] w = w.
Proof. destruct w. unfold record; simpl. by rewrite app_nil_r. Qed.

Lemma effects_since_record l w : effects_since w (record l w) = l.
Proof. unfold effects_since, record; simpl. apply drop_app_length. Qed.

Lemma effects_since_put d l w :
  effects_since w {| hass_data := d; effects := effects (record l w) |} = l.
Proof. unfold effects_since, record; simpl. apply drop_app_length. Qed.

Lemma bind_returns {A B} (m : M A) (f : A → M B) w a w' :
  m w = (Returns a, w') → (m ≫= f) w = f a w'.
Proof. intros Hm. unfold mbind, M_bind. by rewrite Hm. Qed.

Lemma bind_raises {A B} (m : M A) (f : A → M B) w e w' :
  m w = (Raises e, w') → (m ≫= f) w = (Raises e, w').
Proof. intros Hm. unfold mbind, M_bind. by rewrite Hm. Qed.

Lemma getitem_some {V} (d : gmap string V) k v w :
  d !! k = Some v → getitem d k w = (Returns v, w).
Proof. intros Hk. unfold getitem. by rewrite Hk. Qed.

Lemma getitem_none {V} (d : gmap string V) k w :
  d !! k = None → getitem d k w = (Raises (KeyError k), w).
Proof. intros Hk. unfold getitem. by rewrite Hk. Qed.

Lemma for_each_emit {A} (xs : list A) (f : A → effect) w :
  for_each xs (λ x, emit (f x)) w = (Returns tt, record (map f xs) w).
Proof.
  revert w. induction xs as [|x xs IH]; intros w; simpl.
  - by rewrite record_nil.
  - unfold mbind, M_bind, emit at 1. rewrite IH. by rewrite record_record.
Qed.

(** ** The steps of [async_setup_entry] *)

(** Closes a case of [initialise_run] in which a call raised. *)
Ltac close_run :=
  do 2 eexists; split;
  [ eauto using init_run | rewrite ?record_record; reflexivity ].

(** Up to the decoding of the sources nothing can go wrong: the entry has
    its host, port and name, and the defaults supply what the entry's options
    leave out. *)
Lemma async_setup_entry_unfold K env entry w :
  async_setup_entry K env entry w =
    (decode_sources K env (options_of K entry) ≫=
       setup_with_sources K env entry (host entry) (port entry) (name entry)
         (timeout_of K entry) (scan_interval_of K entry))
      (record [setup_entry_record entry] w).
Proof.
  unfold async_setup_entry.
  rewrite (bind_returns _ _ w tt (record [setup_entry_record entry] w)) by done.
  erewrite bind_returns by (apply getitem_some, entry_data_host).
  erewrite bind_returns by (apply getitem_some, entry_data_port).
  erewrite bind_returns by (apply getitem_some, entry_data_name).
  erewrite bind_returns by (apply getitem_some, options_of_scan_interval).
  erewrite bind_returns by (apply getitem_some, options_of_timeout).
  done.
Qed.

Lemma decode_sources_returns K env entry v sources w :
  sources_option_of K entry = Some v →
  json_loads env v = Returns sources →
  decode_sources K env (options_of K entry) w = (Returns sources, w).
Proof.
  intros Hv Hjson. unfold decode_sources, try_except.
  erewrite bind_returns by (apply getitem_some, Hv).
  unfold of_result. by rewrite Hjson.
Qed.

Lemma decode_sources_raises K env entry v e w :
  sources_option_of K entry = Some v →
  json_loads env v = Raises e →
  decode_sources K env (options_of K entry) w =
    (Returns (VDict ∅), record [invalid_sources_record v] w).
Proof.
  intros Hv Hjson. unfold decode_sources, try_except.
  erewrite bind_returns by (apply getitem_some, Hv).
  unfold of_result. rewrite Hjson. simpl.
  erewrite bind_returns by (apply getitem_some, Hv).
  done.
Qed.

Lemma decode_sources_decoded K env entry w :
  decode_sources K env (options_of K entry) w =
    (Returns (decoded K env entry).1, record (decoded K env entry).2 w).
Proof.
  unfold decoded.
  destruct (options_of_sources K entry) as [v Hv]. rewrite Hv.
  destruct (json_loads env v) as [sources|e] eqn:Hjson; simpl.
  - rewrite record_nil. by eapply decode_sources_returns.
  - by eapply decode_sources_raises.
Qed.

Lemma initialise_run env host port timeout scan_interval params sources w :
  ∃ r cs,
    init_run env host port timeout scan_interval params sources r cs ∧
    initialise env host port timeout scan_interval params sources w =
      (r, record (called cs) w).
Proof.
  unfold initialise, invoke, mbind, M_bind, mret, M_ret.
  destruct (PioneerAVR env host port timeout scan_interval params)
    as [p|e] eqn:Hnew; cbn; [|close_run].
  destruct (connect env p) as [[]|e] eqn:Hconnect; cbn; [|close_run].
  destruct (query_device_info env p) as [[]|e] eqn:Hinfo; cbn; [|close_run].
  destruct (query_zones env p) as [[]|e] eqn:Hzones; cbn; [|close_run].
  destruct (source_step env p sources) as [[]|e] eqn:Hstep;
    pose proof Hstep as Hstep'; unfold source_step in Hstep';
    destruct (truthy sources) eqn:Htruthy; rewrite Hstep'; cbn.
  - do 2 eexists. split; [by apply run_complete|].
    unfold source_call. rewrite Htruthy, !record_record. done.
  - do 2 eexists. split; [by apply run_complete|].
    unfold source_call. rewrite Htruthy, !record_record. done.
  - do 2 eexists. split; [by apply run_sources_raises|].
    unfold source_call. rewrite Htruthy, !record_record. done.
  - do 2 eexists. split; [by apply run_sources_raises|].
    unfold source_call. rewrite Htruthy, !record_record. done.
Qed.

Lemma store_client_run K entry p w :
  store_client K entry p w =
    match hass_data w !! DOMAIN K with
    | Some per_entry =>
        (Returns tt,
         {| hass_data :=
              <[DOMAIN K := <[entry_id entry := p]> per_entry]> (hass_data w);
            effects := effects w |})
    | None => (Raises (KeyError (DOMAIN K)), w)
    end.
Proof.
  unfold store_client, get_data, put_data, mbind, M_bind, getitem.
  by destruct (hass_data w !! DOMAIN K).
Qed.

Lemma finish_setup_run K env entry p w :
  finish_setup K env entry (name entry) p w =
    match hass_data w !! DOMAIN K with
    | Some per_entry =>
        (Returns true,
         {| hass_data :=
              <[DOMAIN K := <[entry_id entry := p]> per_entry]> (hass_data w);
            effects := effects (record (setup_effects K env entry p) w) |})
    | None => (Raises (KeyError (DOMAIN K)), w)
    end.
Proof.
  unfold finish_setup.
  pose proof (store_client_run K entry p w) as Hstore.
  destruct (hass_data w !! DOMAIN K) as [per_entry|].
  - rewrite (bind_returns _ _ _ _ _ Hstore).
    unfold register_device.
    erewrite bind_returns by reflexivity.
    erewrite bind_returns by apply for_each_emit.
    erewrite bind_returns by reflexivity.
    unfold mret, M_ret, record, setup_effects. simpl.
    by rewrite <- !app_assoc.
  - by rewrite (bind_raises _ _ _ _ _ Hstore).
Qed.

Lemma setup_with_sources_run K env entry timeout scan_interval sources w :
  ∃ r cs,
    init_run env (host entry) (port entry) timeout scan_interval
      (select_params K (entry_options_of entry)) sources r cs ∧
    setup_with_sources K env entry (host entry) (port entry) (name entry)
        timeout scan_interval sources w =
      match r with
      | Raises e => (Raises (surfaced e), record (called cs) w)
      | Returns p =>
          finish_setup K env entry (name entry) p (record (called cs) w)
      end.
Proof.
  destruct (initialise_run env (host entry) (port entry) timeout scan_interval
              (select_params K (entry_options_of entry)) sources w)
    as (r & cs & Hrun & Hinit).
  exists r, cs. split; [done|].
  unfold setup_with_sources, initialise_or_not_ready.
  unfold mbind, M_bind, try_except. rewrite Hinit.
  destruct r as [p|e]; [done|].
  change (default true (flip except_matches e <$> Some not_ready_classes))
    with (except_matches not_ready_classes e).
  unfold surfaced. by destruct (except_matches not_ready_classes e).
Qed.

(** Every run of [async_setup_entry]: the debug record, the decoding of the
    sources, a run of the initialisation, and then either the exception that
    surfaces or the storing of the client and what follows it. *)
Lemma async_setup_entry_run K env entry w :
  ∃ r cs,
    init_run env (host entry) (port entry) (timeout_of K entry)
      (scan_interval_of K entry) (select_params K (entry_options_of entry))
      (decoded K env entry).1 r cs ∧
    let before :=
      setup_entry_record entry :: (decoded K env entry).2 ++ called cs in
    async_setup_entry K env entry w =
      match r with
      | Raises e => (Raises (surfaced e), record before w)
      | Returns p =>
          match hass_data w !! DOMAIN K with
          | Some per_entry =>
              (Returns true,
               {| hass_data :=
                    <[DOMAIN K := <[entry_id entry := p]> per_entry]>
                      (hass_data w);
                  effects :=
                    effects (record (before ++ setup_effects K env entry p) w) |})
          | None => (Raises (KeyError (DOMAIN K)), record before w)
          end
      end.
Proof.
  rewrite async_setup_entry_unfold.
  erewrite bind_returns by apply decode_sources_decoded.
  destruct (setup_with_sources_run K env entry (timeout_of K entry)
              (scan_interval_of K entry) (decoded K env entry).1
              (record (decoded K env entry).2
                 (record [setup_entry_record entry] w)))
    as (r & cs & Hrun & Hsetup).
  exists r, cs. split; [done|]. simpl. rewrite Hsetup.
  destruct r as [p|e].
  - rewrite finish_setup_run. rewrite !record_record. simpl.
    destruct (hass_data w !! DOMAIN K); [|done].
    by rewrite <- !app_assoc.
  - by rewrite !record_record.
Qed.

(** ** What a run of [async_setup_entry] shows *)

Lemma client_calls_app l1 l2 :
  client_calls (l1 ++ l2) = client_calls l1 ++ client_calls l2.
Proof. apply omap_app. Qed.

Lemma client_calls_called cs : client_calls (called cs) = cs.
Proof.
  induction cs as [|[c raised] cs IH]; [done|].
  change (called ((c, raised) :: cs)) with (Called c raised :: called cs).
  change (client_calls (Called c raised :: called cs))
    with ((c, raised) :: client_calls (called cs)).
  by rewrite IH.
Qed.

Lemma client_calls_decoded K env entry :
  client_calls (decoded K env entry).2 = [].
Proof.
  unfold decoded. destruct (sources_option_of K entry) as [v|]; [|done].
  by destruct (json_loads env v).
Qed.

Lemma client_calls_setup_effects K env entry p :
  client_calls (setup_effects K env entry p) = [].
Proof.
  unfold setup_effects, client_calls. simpl. rewrite omap_app. simpl.
  rewrite app_nil_r. by induction (PLATFORMS K).
Qed.

Lemma client_calls_before K env entry cs :
  client_calls (setup_entry_record entry :: (decoded K env entry).2 ++ called cs)
  = cs.
Proof.
  change (client_calls ([setup_entry_record entry]
                          ++ (decoded K env entry).2 ++ called cs) = cs).
  by rewrite !client_calls_app, client_calls_decoded, client_calls_called.
Qed.

Lemma async_setup_entry_observed K env entry w :
  ∃ r cs,
    init_run env (host entry) (port entry) (timeout_of K entry)
      (scan_interval_of K entry) (select_params K (entry_options_of entry))
      (decoded K env entry).1 r cs ∧
    let m := async_setup_entry K env entry in
    let before :=
      setup_entry_record entry :: (decoded K env entry).2 ++ called cs in
    client_calls (effects_of m w) = cs ∧
    match r, hass_data w !! DOMAIN K with
    | Returns p, Some per_entry =>
        outcome m w = Returns true ∧
        hass_data (after m w) =
          <[DOMAIN K := <[entry_id entry := p]> per_entry]> (hass_data w) ∧
        effects_of m w = before ++ setup_effects K env entry p
    | Returns p, None =>
        outcome m w = Raises (KeyError (DOMAIN K)) ∧
        hass_data (after m w) = hass_data w ∧
        effects_of m w = before
    | Raises e, _ =>
        outcome m w = Raises (surfaced e) ∧
        hass_data (after m w) = hass_data w ∧
        effects_of m w = before
    end.
Proof.
  destruct (async_setup_entry_run K env entry w) as (r & cs & Hrun & Heq).
  exists r, cs. split; [done|]. cbv zeta in Heq |- *.
  unfold effects_of, outcome, after. rewrite Heq.
  destruct r as [p|e]; [destruct (hass_data w !! DOMAIN K)|]; cbn [fst snd].
  - rewrite effects_since_put, client_calls_app, client_calls_before.
    by rewrite client_calls_setup_effects, app_nil_r.
  - by rewrite effects_since_record, client_calls_before.
  - rewrite effects_since_record, client_calls_before.
    by destruct (hass_data w !! DOMAIN K).
Qed.

Lemma is_init_call_source_call p sources :
  is_init_call (source_call p sources) = true.
Proof. unfold source_call. by destruct (truthy sources). Qed.

(** The initialisation never raises without a call that raised, and the
    exception is that of the one call that did. *)
Lemma init_run_raised env host port timeout scan_interval params sources r cs :
  init_run env host port timeout scan_interval params sources r cs →
  head (omap (λ cr, if is_init_call cr.1 then cr.2 else None) cs)
  = exception_of r.
Proof.
  destruct 1; simpl; try done;
    by rewrite is_init_call_source_call.
Qed.

(** ** The claims about [async_setup_entry] *)

(** C3: if one of the device-initialisation calls (construction, connect,
    query_device_info, query_zones, set_source_dict or build_source_dict)
    raises [exc], then setup raises.  When [exc] is an instance of
    [asyncio.TimeoutError], [ValueError] or [AttributeError], what it raises
    is not [exc] but a new exception of class [ConfigEntryNotReady], without
    arguments, whose [__cause__] is [exc]; when [exc] is an instance of none
    of the three, what it raises is [exc] itself. *)
Theorem setup_surfaces_initialisation_failure K env entry w exc :
  init_call_raised (effects_of (async_setup_entry K env entry) w) = Some exc →
  ∃ e,
    outcome (async_setup_entry K env entry) w = Raises e ∧
    if except_matches
         ["asyncio.TimeoutError"; "ValueError"; "AttributeError"] exc
    then
      isinstance e "ConfigEntryNotReady" = true ∧
      exc_mro e =
        ["ConfigEntryNotReady"; "IntegrationError"; "HomeAssistantError";
         "Exception"; "BaseException"; "object"] ∧
      exc_args e = [] ∧
      exc_cause e = Some exc
    else e = exc.
Proof.
  destruct (async_setup_entry_observed K env entry w)
    as (r & cs & Hrun & Hcalls & Hcase).
  unfold init_call_raised. rewrite Hcalls.
  rewrite (init_run_raised _ _ _ _ _ _ _ _ _ Hrun).
  destruct r as [p|e]; [done|]. intros [= ->].
  destruct Hcase as (Hout & _). unfold surfaced in Hout.
  change not_ready_classes
    with ["asyncio.TimeoutError"; "ValueError"; "AttributeError"] in Hout.
  destruct (except_matches
              ["asyncio.TimeoutError"; "ValueError"; "AttributeError"] exc).
  - exists (ConfigEntryNotReady_from exc). split; [exact Hout|].
    by repeat split.
  - by exists exc.
Qed.

Lemma setup_surfaces_initialisation_failure_witness :
  let setup_when_connect_raises exc :=
    async_setup_entry Sample.consts (Sample.unreachable exc)
      (Sample.entry_with None) in
  (∃ e,
     outcome (setup_when_connect_raises Sample.asyncio_TimeoutError)
       Sample.ready = Raises e ∧
     isinstance e "ConfigEntryNotReady" = true ∧
     isinstance e "asyncio.TimeoutError" = false ∧
     exc_cause e = Some Sample.asyncio_TimeoutError) ∧
  outcome (setup_when_connect_raises Sample.asyncio_TimeoutError) Sample.ready
    = Raises
        (Exn ["ConfigEntryNotReady"; "IntegrationError"; "HomeAssistantError";
              "Exception"; "BaseException"; "object"] []
           (Some (Exn ["asyncio.TimeoutError"; "Exception"; "BaseException";
                       "object"] [] None))) ∧
  outcome (setup_when_connect_raises Sample.ConnectionRefusedError)
    Sample.ready
    = Raises Sample.ConnectionRefusedError.
Proof.
  cbv zeta. split; [|split].
  - destruct (setup_surfaces_initialisation_failure Sample.consts
                (Sample.unreachable Sample.asyncio_TimeoutError)
                (Sample.entry_with None) Sample.ready
                Sample.asyncio_TimeoutError)
      as (e & Hout & Hnot_ready); [vm_compute; reflexivity|].
    exists e. split; [exact Hout|].
    assert (except_matches
              ["asyncio.TimeoutError"; "ValueError"; "AttributeError"]
              Sample.asyncio_TimeoutError = true) as Hmatches
      by (vm_compute; reflexivity).
    rewrite Hmatches in Hnot_ready.
    destruct Hnot_ready as (Hinstance & Hmro & _ & Hcause).
    split; [exact Hinstance|]. split; [|exact Hcause].
    unfold isinstance. rewrite Hmro. vm_compute; reflexivity.
  - vm_compute; reflexivity.
  - destruct (setup_surfaces_initialisation_failure Sample.consts
                (Sample.unreachable Sample.ConnectionRefusedError)
                (Sample.entry_with None) Sample.ready
                Sample.ConnectionRefusedError)
      as (e & Hout & Hsame); [vm_compute; reflexivity|].
    assert (except_matches
              ["asyncio.TimeoutError"; "ValueError"; "AttributeError"]
              Sample.ConnectionRefusedError = false) as Hmatches
      by (vm_compute; reflexivity).
    rewrite Hmatches in Hsame. by rewrite Hout, Hsame.
Defined.

Lemma before_only_logs_and_calls K env entry cs :
  Forall (λ ev, is_log_or_call ev = true)
    (setup_entry_record entry :: (decoded K env entry).2 ++ called cs).
Proof.
  apply Forall_cons. split; [done|]. apply Forall_app. split.
  - unfold decoded. destruct (sources_option_of K entry) as [v|]; [|done].
    destruct (json_loads env v); [done|]. by apply Forall_singleton.
  - unfold called. apply Forall_map. by apply Forall_true.
Qed.

(** Whenever setup raises, it has stored no client and has done nothing
    but log and call the client. *)
Lemma setup_raises_before_storing K env entry w e :
  outcome (async_setup_entry K env entry) w = Raises e →
  hass_data (after (async_setup_entry K env entry) w) = hass_data w ∧
  Forall (λ ev, is_log_or_call ev = true)
    (effects_of (async_setup_entry K env entry) w).
Proof.
  destruct (async_setup_entry_observed K env entry w)
    as (r & cs & Hrun & Hcalls & Hcase).
  intros Hraises.
  destruct r as [p|e']; [destruct (hass_data w !! DOMAIN K)|];
    destruct Hcase as (Hout & Hdata & Heffects).
  - congruence.
  - rewrite Hdata, Heffects. eauto using before_only_logs_and_calls.
  - rewrite Hdata, Heffects. eauto using before_only_logs_and_calls.
Qed.

(** C10: if setup fails with the not-ready condition, [hass.data] is as it
    was, and with it the per-entry client map and what is stored under the
    entry's id; no device has been registered, no platform setup has been
    forwarded and no update listener has been added. *)
Theorem not_ready_leaves_host_untouched K env entry w e :
  outcome (async_setup_entry K env entry) w = Raises e →
  isinstance e "ConfigEntryNotReady" = true →
  let w' := after (async_setup_entry K env entry) w in
  let done_by_setup := effects_of (async_setup_entry K env entry) w in
  hass_data w' = hass_data w ∧
  stored_client K entry w' = stored_client K entry w ∧
  (∀ d, DeviceRegistered d ∉ done_by_setup) ∧
  (∀ id component, SetupForwarded id component ∉ done_by_setup) ∧
  (∀ id, UpdateListenerAdded id ∉ done_by_setup).
Proof.
  intros Hraises _ w' done_by_setup.
  destruct (setup_raises_before_storing K env entry w e Hraises)
    as [Hdata Honly].
  fold w' in Hdata. fold done_by_setup in Honly.
  rewrite Forall_forall in Honly.
  split; [done|]. split; [unfold stored_client; by rewrite Hdata|].
  repeat split; intros; intros Hin; by apply Honly in Hin.
Qed.

Lemma not_ready_leaves_host_untouched_witness :
  let m :=
    async_setup_entry Sample.consts
      (Sample.unreachable Sample.asyncio_TimeoutError)
      (Sample.entry_with None) in
  outcome m Sample.ready
    = Raises (ConfigEntryNotReady_from Sample.asyncio_TimeoutError) ∧
  hass_data (after m Sample.ready) = hass_data Sample.ready ∧
  stored_client Sample.consts (Sample.entry_with None) (after m Sample.ready)
    = None.
Proof.
  assert (Hout : outcome
            (async_setup_entry Sample.consts
               (Sample.unreachable Sample.asyncio_TimeoutError)
               (Sample.entry_with None)) Sample.ready
          = Raises (ConfigEntryNotReady_from Sample.asyncio_TimeoutError))
    by (vm_compute; reflexivity).
  destruct (not_ready_leaves_host_untouched Sample.consts
              (Sample.unreachable Sample.asyncio_TimeoutError)
              (Sample.entry_with None) Sample.ready _ Hout)
    as (Hdata & Hstored & _); [vm_compute; reflexivity|].
  cbv zeta. split; [exact Hout|]. split; [exact Hdata|].
  rewrite Hstored. vm_compute; reflexivity.
Defined.

(** C7: the calls of the device initialisation come in this order:
    construction of the client, connect, query_device_info, query_zones,
    then set_source_dict with the decoded sources if they are non-empty and
    build_source_dict otherwise.  The calls setup makes are an initial part
    of this sequence, starting with the construction; only the last call
    made can have raised, and if none raised all five were made. *)
Theorem initialisation_calls_in_order K env entry w :
  let calls := client_calls (effects_of (async_setup_entry K env entry) w) in
  let sources := (decoded K env entry).1 in
  ∃ p,
    let full :=
      [New (host entry) (port entry) (timeout_of K entry)
         (scan_interval_of K entry) (select_params K (entry_options_of entry));
       Connect p; QueryDeviceInfo p; QueryZones p;
       if truthy sources then SetSourceDict p sources
       else BuildSourceDict p] in
    calls.*1 `prefix_of` full ∧
    calls ≠ [] ∧
    (∀ i c e, calls !! i = Some (c, Some e) → S i = List.length calls) ∧
    (Forall (λ cr, cr.2 = None) calls → calls.*1 = full).
Proof.
  destruct (async_setup_entry_observed K env entry w)
    as (r & cs & Hrun & Hcalls & _).
  cbv zeta. rewrite Hcalls. clear Hcalls.
  assert (∀ p, source_call p (decoded K env entry).1 =
               if truthy (decoded K env entry).1
               then SetSourceDict p (decoded K env entry).1
               else BuildSourceDict p) as Hsource by done.
  destruct Hrun as [e _|p e _ _|p e _ _ _|p e _ _ _ _|p e _ _ _ _ _|p _ _ _ _ _];
    [exists 0%nat|exists p..]; rewrite <- ?Hsource;
    (split; [by eexists|]); (split; [done|]);
    (split; [intros [|[|[|[|[|i]]]]] c' e'; by intros [=] |]);
    intros Hall; try done;
    repeat (apply Forall_cons in Hall as [? Hall]; try done).
Qed.

Lemma initialisation_calls_in_order_witness :
  let calls :=
    client_calls
      (effects_of
         (async_setup_entry Sample.consts Sample.receiver
            (Sample.entry_with None))
         Sample.ready) in
  Forall (λ cr, cr.2 = None) calls ∧ List.length calls = 5%nat.
Proof.
  cbv zeta.
  assert (Hall : Forall (λ cr : client_call * option exn, cr.2 = None)
            (client_calls
               (effects_of
                  (async_setup_entry Sample.consts Sample.receiver
                     (Sample.entry_with None))
                  Sample.ready)))
    by (vm_compute; repeat constructor).
  split; [exact Hall|].
  destruct (initialisation_calls_in_order Sample.consts Sample.receiver
              (Sample.entry_with None) Sample.ready)
    as (p & _ & _ & _ & Hfull).
  rewrite <- (length_fmap fst), (Hfull Hall). reflexivity.
Defined.

(** How often the two calls of the last step are made in a run of the
    initialisation for an entry, and with which sources. *)
Lemma init_run_source_calls K env entry sources r cs :
  init_run env (host entry) (port entry) (timeout_of K entry)
    (scan_interval_of K entry) (select_params K (entry_options_of entry))
    sources r cs →
  List.length (List.filter (λ cr, is_set_source_dict cr.1) cs) =
    (if preceding_calls_return K env entry && truthy sources
     then 1 else 0)%nat ∧
  List.length (List.filter (λ cr, is_build_source_dict cr.1) cs) =
    (if preceding_calls_return K env entry && negb (truthy sources)
     then 1 else 0)%nat ∧
  ∀ c raised, (c, raised) ∈ cs → is_set_source_dict c = true →
    ∃ p, c = SetSourceDict p sources.
Proof.
  unfold preceding_calls_return.
  destruct 1 as [e Hnew|p e Hnew Hconnect|p e Hnew Hconnect Hinfo
                |p e Hnew Hconnect Hinfo Hzones
                |p e Hnew Hconnect Hinfo Hzones _
                |p Hnew Hconnect Hinfo Hzones _];
    rewrite Hnew, ?Hconnect, ?Hinfo, ?Hzones; unfold source_call;
    destruct (truthy sources) eqn:Htruthy; simpl;
    (split; [done|]); (split; [done|]);
    intros c raised Hin Hset;
    repeat (apply elem_of_cons in Hin as [[= -> ->]|Hin]; try done);
    try (by apply elem_of_nil in Hin); eauto.
Qed.

Lemma decoded_returns K env entry v sources :
  sources_option_of K entry = Some v →
  json_loads env v = Returns sources →
  decoded K env entry = (sources, []).
Proof. intros Hv Hjson. unfold decoded. by rewrite Hv, Hjson. Qed.

Lemma decoded_raises K env entry v e :
  sources_option_of K entry = Some v →
  json_loads env v = Raises e →
  decoded K env entry = (VDict ∅, [invalid_sources_record v]).
Proof. intros Hv Hjson. unfold decoded. by rewrite Hv, Hjson. Qed.

(** The last step of the initialisation, as a run of setup shows it. *)
Lemma setup_source_calls K env entry w :
  let effs := effects_of (async_setup_entry K env entry) w in
  let sources := (decoded K env entry).1 in
  times is_set_source_dict effs =
    (if preceding_calls_return K env entry && truthy sources
     then 1 else 0)%nat ∧
  times is_build_source_dict effs =
    (if preceding_calls_return K env entry && negb (truthy sources)
     then 1 else 0)%nat ∧
  ∀ c raised, (c, raised) ∈ client_calls effs → is_set_source_dict c = true →
    ∃ p, c = SetSourceDict p sources.
Proof.
  destruct (async_setup_entry_observed K env entry w)
    as (r & cs & Hrun & Hcalls & _).
  cbv zeta. unfold times. rewrite Hcalls.
  by eapply init_run_source_calls.
Qed.

(** C6: for an entry whose sources option decodes to the empty mapping,
    setup never calls set_source_dict, and it calls build_source_dict
    exactly once when construction, connect, query_device_info and
    query_zones return; when one of them raises, the initialisation ends
    there and build_source_dict is not reached. *)
Theorem empty_sources_are_discovered K env entry w v :
  sources_option_of K entry = Some v →
  json_loads env v = Returns (VDict ∅) →
  let effs := effects_of (async_setup_entry K env entry) w in
  times is_set_source_dict effs = 0%nat ∧
  times is_build_source_dict effs =
    (if preceding_calls_return K env entry then 1 else 0)%nat.
Proof.
  intros Hv Hjson effs.
  destruct (setup_source_calls K env entry w) as (Hset & Hbuild & _).
  fold effs in Hset, Hbuild.
  rewrite (decoded_returns K env entry v _ Hv Hjson) in Hset, Hbuild.
  simpl in Hset, Hbuild. rewrite andb_false_r in Hset.
  rewrite andb_true_r in Hbuild. done.
Qed.

Lemma empty_sources_are_discovered_witness :
  let effs :=
    effects_of
      (async_setup_entry Sample.consts Sample.receiver
         (Sample.entry_with None))
      Sample.ready in
  times is_set_source_dict effs = 0%nat ∧
  times is_build_source_dict effs = 1%nat.
Proof.
  apply (empty_sources_are_discovered Sample.consts Sample.receiver
           (Sample.entry_with None) Sample.ready (VStr "{}"));
    vm_compute; reflexivity.
Defined.

(** C1 as stated fails: the sources option [{}] is well-formed JSON, and
    with every call returning setup yet leaves set_source_dict alone and
    calls build_source_dict. *)
Lemma well_formed_sources_can_be_discovered :
  let entry := Sample.entry_with (Sample.sources_option "{}") in
  let m := async_setup_entry Sample.consts Sample.receiver entry in
  sources_option_of Sample.consts entry = Some (VStr "{}") ∧
  json_loads Sample.receiver (VStr "{}") = Returns (VDict ∅) ∧
  outcome m Sample.ready = Returns true ∧
  times is_set_source_dict (effects_of m Sample.ready) = 0%nat ∧
  times is_build_source_dict (effects_of m Sample.ready) = 1%nat.
Proof. vm_compute. repeat split; reflexivity. Qed.

(** C1, amended: for an entry whose sources option is a JSON string that
    decodes to a non-empty value, setup never calls build_source_dict; it
    calls set_source_dict exactly once when construction, connect,
    query_device_info and query_zones return, and whenever it calls it the
    argument is the decoded value. *)
Theorem non_empty_sources_are_applied K env entry w doc sources :
  sources_option_of K entry = Some (VStr doc) →
  json_loads env (VStr doc) = Returns sources →
  truthy sources = true →
  let effs := effects_of (async_setup_entry K env entry) w in
  times is_build_source_dict effs = 0%nat ∧
  times is_set_source_dict effs =
    (if preceding_calls_return K env entry then 1 else 0)%nat ∧
  ∀ c raised, (c, raised) ∈ client_calls effs → is_set_source_dict c = true →
    ∃ p, c = SetSourceDict p sources.
Proof.
  intros Hv Hjson Htruthy effs.
  destruct (setup_source_calls K env entry w) as (Hset & Hbuild & Hargs).
  fold effs in Hset, Hbuild, Hargs.
  rewrite (decoded_returns K env entry _ _ Hv Hjson) in Hset, Hbuild, Hargs.
  simpl in Hset, Hbuild, Hargs. rewrite Htruthy in Hset, Hbuild.
  rewrite andb_false_r in Hbuild. rewrite andb_true_r in Hset. done.
Qed.

Lemma non_empty_sources_are_applied_witness :
  let effs :=
    effects_of
      (async_setup_entry Sample.consts Sample.receiver
         (Sample.entry_with (Sample.sources_option Sample.one_source)))
      Sample.ready in
  times is_build_source_dict effs = 0%nat ∧
  times is_set_source_dict effs = 1%nat.
Proof.
  destruct (non_empty_sources_are_applied Sample.consts Sample.receiver
              (Sample.entry_with (Sample.sources_option Sample.one_source))
              Sample.ready Sample.one_source
              (VDict {[ "dvd" := VStr "04" ]}))
    as (Hbuild & Hset & _); [vm_compute; reflexivity..|].
  split; [exact Hbuild | exact Hset].
Defined.

Lemma init_run_returns K env entry sources r cs :
  init_run env (host entry) (port entry) (timeout_of K entry)
    (scan_interval_of K entry) (select_params K (entry_options_of entry))
    sources r cs →
  initialisation_returns K env entry sources = true →
  ∃ p, r = Returns p.
Proof.
  unfold initialisation_returns.
  destruct 1 as [e Hnew|p e Hnew Hconnect|p e Hnew Hconnect Hinfo
                |p e Hnew Hconnect Hinfo Hzones
                |p e Hnew Hconnect Hinfo Hzones Hstep
                |p Hnew Hconnect Hinfo Hzones Hstep];
    rewrite Hnew, ?Hconnect, ?Hinfo, ?Hzones, ?Hstep; simpl;
    try done; eauto.
Qed.

(** C2: for an entry whose sources option is a string that json.loads
    rejects, the decoding step does not raise: it logs the error record
    with the offending string and yields the empty mapping.  Setup then
    goes on as it does for empty sources, from line 70, and returns True
    when the initialisation calls return and the domain's store is there
    for the client. *)
Theorem malformed_sources_fall_back K env entry w doc e :
  sources_option_of K entry = Some (VStr doc) →
  json_loads env (VStr doc) = Raises e →
  (∀ w0, decode_sources K env (options_of K entry) w0 =
           (Returns (VDict ∅),
            record [Logged ERROR "invalid sources specified: %s" [VStr doc]]
              w0)) ∧
  async_setup_entry K env entry w =
    setup_with_sources K env entry (host entry) (port entry) (name entry)
      (timeout_of K entry) (scan_interval_of K entry) (VDict ∅)
      (record [setup_entry_record entry;
               Logged ERROR "invalid sources specified: %s" [VStr doc]] w) ∧
  (initialisation_returns K env entry (VDict ∅) = true →
   is_Some (hass_data w !! DOMAIN K) →
   outcome (async_setup_entry K env entry) w = Returns true).
Proof.
  intros Hv Hjson. split; [|split].
  - intros w0. by eapply decode_sources_raises.
  - rewrite async_setup_entry_unfold.
    erewrite bind_returns by (by eapply decode_sources_raises).
    by rewrite record_record.
  - intros Hreturns [per_entry Hstore].
    destruct (async_setup_entry_observed K env entry w)
      as (r & cs & Hrun & _ & Hcase).
    rewrite (decoded_raises K env entry _ _ Hv Hjson) in Hrun.
    destruct (init_run_returns K env entry _ _ _ Hrun Hreturns) as [p ->].
    rewrite Hstore in Hcase. by destruct Hcase as (-> & _).
Qed.

Lemma malformed_sources_fall_back_witness :
  let entry := Sample.entry_with (Sample.sources_option "not json") in
  let m := async_setup_entry Sample.consts Sample.receiver entry in
  json_loads Sample.receiver (VStr "not json") = Raises Json.JSONDecodeError ∧
  outcome m Sample.ready = Returns true ∧
  client_calls (effects_of m Sample.ready) =
    [(New (VStr "avr") (VInt 8102) (VInt 5) (VInt 60)
        {[ "max_volume" := VInt 100 ]}, None);
     (Connect 7%nat, None); (QueryDeviceInfo 7%nat, None);
     (QueryZones 7%nat, None); (BuildSourceDict 7%nat, None)].
Proof.
  cbv zeta. split; [vm_compute; reflexivity|]. split.
  - apply (malformed_sources_fall_back Sample.consts Sample.receiver
             (Sample.entry_with (Sample.sources_option "not json"))
             Sample.ready "not json" Json.JSONDecodeError);
      [vm_compute; reflexivity.. | vm_compute; eauto].
  - vm_compute; reflexivity.
Defined.


(** The successful run: all five calls returned, the client is stored
    under the entry's id, and then the device is registered, the platform
    setups are scheduled and the update listener is added. *)
Lemma setup_success K env entry w :
  outcome (async_setup_entry K env entry) w = Returns true →
  ∃ p,
    stored_client K entry (after (async_setup_entry K env entry) w) = Some p ∧
    effects_of (async_setup_entry K env entry) w =
      setup_entry_record entry :: (decoded K env entry).2
      ++ called
           [(New (host entry) (port entry) (timeout_of K entry)
               (scan_interval_of K entry)
               (select_params K (entry_options_of entry)), None);
            (Connect p, None); (QueryDeviceInfo p, None);
            (QueryZones p, None);
            (source_call p (decoded K env entry).1, None)]
      ++ setup_effects K env entry p.
Proof.
  destruct (async_setup_entry_observed K env entry w)
    as (r & cs & Hrun & _ & Hcase).
  intros Hout.
  destruct r as [p|e]; [destruct (hass_data w !! DOMAIN K) eqn:Hdomain|];
    destruct Hcase as (Hout' & Hdata & Heffects); [|congruence..].
  exists p. split.
  - unfold stored_client. rewrite Hdata, lookup_insert_eq. simpl.
    by rewrite lookup_insert_eq.
  - rewrite Heffects. inversion Hrun; subst.
    rewrite <- app_comm_cons. f_equal. by rewrite <- app_assoc.
Qed.

(** ** The claim about [_update_listener] *)

Lemma string_app_inj (s a b : string) : s +:+ a = s +:+ b → a = b.
Proof. induction s as [|c s IH]; simpl; [done|]. intros [= ?]. auto. Qed.

Lemma options_update_topic_inj K entry other :
  options_update_topic K other = options_update_topic K entry →
  str_of (unique_id other) = str_of (unique_id entry).
Proof.
  unfold options_update_topic. intros Heq.
  apply string_app_inj in Heq. by apply (string_app_inj "-") in Heq.
Qed.

(** C9: the options-update handler emits exactly one signal, on the topic
    made of PIONEER_OPTIONS_UPDATE, a dash and the entry's unique id, with
    the entry's options as payload; it returns nothing and leaves
    [hass.data] alone.  Nothing is sent on the topic of an entry whose
    unique id reads differently. *)
Theorem options_update_is_one_signal K entry w :
  let m := _update_listener K entry in
  outcome m w = Returns tt ∧
  effects_of m w =
    [SignalSent (PIONEER_OPTIONS_UPDATE K +:+ "-" +:+ str_of (unique_id entry))
       (options entry)] ∧
  hass_data (after m w) = hass_data w ∧
  ∀ other payload,
    str_of (unique_id other) ≠ str_of (unique_id entry) →
    SignalSent (options_update_topic K other) payload ∉ effects_of m w.
Proof.
  cbv zeta. unfold outcome, effects_of, after, _update_listener, emit.
  cbn [fst snd]. rewrite effects_since_record.
  repeat split. intros other payload Hne Hin.
  apply list_elem_of_singleton in Hin. injection Hin as Htopic _.
  by apply options_update_topic_inj in Htopic.
Qed.

Lemma options_update_is_one_signal_witness :
  effects_of (_update_listener Sample.consts (Sample.entry_with None))
    Sample.ready
  = [SignalSent "pioneer_options_update-avr:8102" None] ∧
  ∀ payload,
    SignalSent "pioneer_options_update-den:8102" payload
    ∉ effects_of (_update_listener Sample.consts (Sample.entry_with None))
        Sample.ready.
Proof.
  destruct (options_update_is_one_signal Sample.consts
              (Sample.entry_with None) Sample.ready)
    as (_ & Heffects & _ & Hother).
  split; [exact Heffects|].
  intros payload. apply (Hother Sample.other_entry payload).
  vm_compute. intros [=].
Defined.

(** ** The steps of [async_unload_entry] *)

Lemma run_all_forward env entry components w :
  run_all (map (forward_entry_unload env entry) components) w =
    (map (async_forward_entry_unload env (entry_id entry)) components,
     record (map (UnloadForwarded (entry_id entry)) components) w).
Proof.
  revert w. induction components as [|c components IH]; intros w; simpl.
  - by rewrite record_nil.
  - unfold forward_entry_unload at 1. rewrite IH. by rewrite record_record.
Qed.

Lemma collect_returned (rs : list (result bool)) :
  forallb has_returned rs = true →
  ∃ bs, collect rs = Returns bs ∧ all bs = forallb succeeded rs.
Proof.
  induction rs as [|[b|e] rs IH]; simpl; [by eexists| |done].
  intros Hrs. destruct (IH Hrs) as (bs & -> & Hall).
  exists (b :: bs). split; [done|]. unfold all in *. simpl. by rewrite Hall.
Qed.

Lemma stored_client_lookup K entry w p :
  stored_client K entry w = Some p ↔
  ∃ per_entry,
    hass_data w !! DOMAIN K = Some per_entry ∧
    per_entry !! entry_id entry = Some p.
Proof.
  unfold stored_client.
  destruct (hass_data w !! DOMAIN K) as [per_entry|]; simpl; split.
  - eauto.
  - by intros (? & [= <-] & ?).
  - done.
  - by intros (? & [=] & _).
Qed.

(** Every run of [async_unload_entry] on a stored client in which the
    platform unloads return. *)
Lemma async_unload_entry_run K env entry w per_entry p :
  hass_data w !! DOMAIN K = Some per_entry →
  per_entry !! entry_id entry = Some p →
  platform_unloads_return K env entry = true →
  let done_by_unload :=
    unload_entry_record
    :: map (UnloadForwarded (entry_id entry)) (PLATFORMS K)
    ++ [Called (Shutdown p) (exception_of (shutdown env p))] in
  async_unload_entry K env entry w =
    match shutdown env p with
    | Returns _ =>
        (Returns (platform_unloads_succeed K env entry),
         if platform_unloads_succeed K env entry
         then {| hass_data :=
                   <[DOMAIN K := delete (entry_id entry) per_entry]>
                     (hass_data w);
                 effects := effects (record done_by_unload w) |}
         else record done_by_unload w)
    | Raises e => (Raises e, record done_by_unload w)
    end.
Proof.
  intros Hdomain Hentry Hreturn. cbv zeta.
  unfold platform_unloads_return, platform_unloads_succeed in *.
  destruct (collect_returned _ Hreturn) as (bs & Hcollect & Hall).
  unfold async_unload_entry.
  erewrite bind_returns by reflexivity.
  erewrite bind_returns; last first.
  { unfold gather. rewrite run_all_forward.
    fold (unload_results K env entry). by rewrite Hcollect. }
  rewrite Hall. clear Hall Hcollect bs.
  erewrite bind_returns by reflexivity.
  erewrite bind_returns by (by apply getitem_some).
  erewrite bind_returns by (by apply getitem_some).
  unfold mbind at 1, M_bind at 1, invoke at 1. rewrite !record_record.
  destruct (shutdown env p) as [[]|e]; [|done].
  destruct (forallb succeeded (unload_results K env entry)); [|done].
  unfold pop_client.
  erewrite bind_returns; [done|].
  erewrite bind_returns; [done|].
  erewrite bind_returns by reflexivity.
  erewrite bind_returns by (by apply getitem_some).
  erewrite bind_returns by (by apply getitem_some).
  erewrite bind_returns by reflexivity.
  done.
Qed.

Lemma collect_raised (rs : list (result bool)) :
  forallb has_returned rs = false →
  forallb succeeded rs = false ∧ ∃ e, collect rs = Raises e.
Proof.
  induction rs as [|[b|e] rs IH]; simpl; [done| |by eauto].
  intros Hrs. destruct (IH Hrs) as (Hsucceeded & e & ->).
  rewrite Hsucceeded, andb_false_r. eauto.
Qed.

(** When a platform unload raises, the exception leaves
    [async_unload_entry] before the client is looked up. *)
Lemma async_unload_entry_gather_raises K env entry w :
  platform_unloads_return K env entry = false →
  platform_unloads_succeed K env entry = false ∧
  ∃ e, async_unload_entry K env entry w =
         (Raises e,
          record (unload_entry_record
                  :: map (UnloadForwarded (entry_id entry)) (PLATFORMS K)) w).
Proof.
  intros Hraise. unfold platform_unloads_return, platform_unloads_succeed in *.
  destruct (collect_raised _ Hraise) as (Hsucceeded & e & Hcollect).
  split; [done|]. exists e.
  unfold async_unload_entry.
  erewrite bind_returns by reflexivity.
  erewrite bind_raises; last first.
  { unfold gather. rewrite run_all_forward.
    fold (unload_results K env entry). by rewrite Hcollect. }
  by rewrite record_record.
Qed.

(** ** The claims about [async_unload_entry] *)

(** C5 as stated fails: a platform unload can fail by raising, and then
    the exception leaves unload at line 130 and the shutdown of the stored
    client is never called. *)
Lemma raising_platform_unload_skips_shutdown :
  let entry := Sample.entry_with None in
  let loaded :=
    after (async_setup_entry Sample.consts Sample.receiver entry)
      Sample.ready in
  let m :=
    async_unload_entry Sample.consts
      (Faulty.platform_raises Faulty.ValueError) entry in
  stored_client Sample.consts entry loaded = Some 7%nat ∧
  outcome m loaded = Raises Faulty.ValueError ∧
  client_calls (effects_of m loaded) = [] ∧
  stored_client Sample.consts entry (after m loaded) = Some 7%nat.
Proof. vm_compute. repeat split; reflexivity. Qed.

(** C5, amended: for an entry with a stored client, whatever the platform
    unloads return, True or False, unload calls the shutdown of that client,
    once, and makes no other call into the client.  When a platform unload
    raises instead of returning, unload makes no call into the client at
    all. *)
Theorem unload_shuts_client_down K env entry w p :
  stored_client K entry w = Some p →
  client_calls (effects_of (async_unload_entry K env entry) w) =
    if platform_unloads_return K env entry
    then [(Shutdown p, exception_of (shutdown env p))]
    else [].
Proof.
  intros (per_entry & Hdomain & Hentry)%stored_client_lookup.
  assert (∀ components,
    client_calls (map (UnloadForwarded (entry_id entry)) components) = [])
    as Hnone by (by induction components).
  destruct (platform_unloads_return K env entry) eqn:Hreturn.
  - pose proof (async_unload_entry_run K env entry w per_entry p
                  Hdomain Hentry Hreturn) as Hrun.
    cbv zeta in Hrun. unfold effects_of, after. rewrite Hrun.
    destruct (shutdown env p) as [[]|e];
      [destruct (platform_unloads_succeed K env entry)|]; cbn [snd];
      rewrite ?effects_since_put, ?effects_since_record;
      change (client_calls (?a :: ?l ++ ?k))
        with (client_calls ([a] ++ l ++ k));
      by rewrite !client_calls_app, Hnone.
  - destruct (async_unload_entry_gather_raises K env entry w Hreturn)
      as (_ & e & Hrun).
    unfold effects_of, after. rewrite Hrun. cbn [snd].
    rewrite effects_since_record.
    change (client_calls (?a :: ?l)) with (client_calls ([a] ++ l)).
    by rewrite client_calls_app, Hnone.
Qed.

Lemma unload_shuts_client_down_witness :
  let loaded :=
    after (async_setup_entry Sample.consts Sample.receiver
             (Sample.entry_with None)) Sample.ready in
  client_calls
    (effects_of (async_unload_entry Sample.consts Sample.receiver
                   (Sample.entry_with None)) loaded)
  = [(Shutdown 7%nat, None)] ∧
  client_calls
    (effects_of (async_unload_entry Sample.consts Sample.stuck_platform
                   (Sample.entry_with None)) loaded)
  = [(Shutdown 7%nat, None)].
Proof.
  cbv zeta. split.
  - rewrite (unload_shuts_client_down Sample.consts Sample.receiver
               (Sample.entry_with None) _ 7%nat) by (vm_compute; reflexivity).
    vm_compute; reflexivity.
  - rewrite (unload_shuts_client_down Sample.consts Sample.stuck_platform
               (Sample.entry_with None) _ 7%nat) by (vm_compute; reflexivity).
    vm_compute; reflexivity.
Defined.

(** C4: for an entry with a stored client whose shutdown returns, unload
    removes the client from the per-entry map if and only if every platform
    unload succeeds, that is returns True; the clients of other entries stay
    as they are.  When the platform unloads return, unload returns the
    conjunction of their results. *)
Theorem unload_removes_client_on_success K env entry w p :
  stored_client K entry w = Some p →
  shutdown env p = Returns tt →
  let m := async_unload_entry K env entry in
  let unload_ok := platform_unloads_succeed K env entry in
  stored_client K entry (after m w) = (if unload_ok then None else Some p) ∧
  (∀ other, entry_id other ≠ entry_id entry →
     stored_client K other (after m w) = stored_client K other w) ∧
  (platform_unloads_return K env entry = true →
   outcome m w = Returns unload_ok).
Proof.
  intros Hstored Hshutdown. cbv zeta.
  destruct (platform_unloads_return K env entry) eqn:Hreturn.
  - pose proof Hstored as (per_entry & Hdomain & Hentry)%stored_client_lookup.
    pose proof (async_unload_entry_run K env entry w per_entry p
                  Hdomain Hentry Hreturn) as Hrun.
    cbv zeta in Hrun. unfold outcome, after. rewrite Hrun, Hshutdown.
    destruct (platform_unloads_succeed K env entry); cbn [fst snd]; [|done].
    unfold stored_client; simpl. rewrite lookup_insert_eq; simpl.
    split; [by rewrite lookup_delete_eq|]. split; [|done].
    intros other Hother. rewrite Hdomain; simpl.
    by rewrite lookup_delete_ne.
  - destruct (async_unload_entry_gather_raises K env entry w Hreturn)
      as (-> & e & Hrun).
    unfold after. by rewrite Hrun.
Qed.

Lemma unload_removes_client_on_success_witness :
  let entry := Sample.entry_with None in
  let loaded :=
    after (async_setup_entry Sample.consts Sample.receiver entry)
      Sample.ready in
  (outcome (async_unload_entry Sample.consts Sample.receiver entry) loaded
     = Returns true ∧
   stored_client Sample.consts entry
     (after (async_unload_entry Sample.consts Sample.receiver entry) loaded)
     = None) ∧
  (outcome (async_unload_entry Sample.consts Sample.stuck_platform entry)
     loaded = Returns false ∧
   stored_client Sample.consts entry
     (after (async_unload_entry Sample.consts Sample.stuck_platform entry)
        loaded)
     = Some 7%nat).
Proof.
  cbv zeta. split.
  - destruct (unload_removes_client_on_success Sample.consts Sample.receiver
                (Sample.entry_with None)
                (after (async_setup_entry Sample.consts Sample.receiver
                          (Sample.entry_with None)) Sample.ready) 7%nat)
      as (Hstored & _ & Hout); [vm_compute; reflexivity..|].
    split; [apply Hout; vm_compute; reflexivity | exact Hstored].
  - destruct (unload_removes_client_on_success Sample.consts
                Sample.stuck_platform (Sample.entry_with None)
                (after (async_setup_entry Sample.consts Sample.receiver
                          (Sample.entry_with None)) Sample.ready) 7%nat)
      as (Hstored & _ & Hout); [vm_compute; reflexivity..|].
    split; [apply Hout; vm_compute; reflexivity | exact Hstored].
Defined.

(** ** [async_setup] and runs on the sample installation *)

(** [async_setup] returns True and leaves a per-entry map for the domain:
    the one that was there, or an empty one. *)
Lemma async_setup_prepares_store K w :
  outcome (async_setup K) w = Returns true ∧
  hass_data (after (async_setup K) w) !! DOMAIN K =
    Some (default ∅ (hass_data w !! DOMAIN K)) ∧
  ∀ domain, domain ≠ DOMAIN K →
    hass_data (after (async_setup K) w) !! domain = hass_data w !! domain.
Proof.
  unfold outcome, after, async_setup, get_data, put_data, emit.
  unfold mbind, M_bind, mret, M_ret. cbn [fst snd hass_data record].
  destruct (hass_data w !! DOMAIN K) as [per_entry|] eqn:Hdomain;
    cbn [fst snd hass_data].
  - done.
  - rewrite lookup_insert_eq. split; [done|]. split; [done|].
    intros domain Hne. by rewrite lookup_insert_ne.
Qed.

(** Set up, then unloaded: the client is shut down and gone. *)
Example setup_then_unload :
  let entry := Sample.entry_with None in
  let loaded :=
    after (async_setup_entry Sample.consts Sample.receiver entry)
      Sample.ready in
  let unloaded :=
    after (async_unload_entry Sample.consts Sample.receiver entry) loaded in
  stored_client Sample.consts entry loaded = Some 7%nat ∧
  stored_client Sample.consts entry unloaded = None ∧
  client_calls (effects_since loaded unloaded) = [(Shutdown 7%nat, None)].
Proof. vm_compute. repeat split; reflexivity. Qed.

(** Without [async_setup] there is no per-entry map to store the client in:
    the initialisation runs, then line 90 raises [KeyError]. *)
Example setup_entry_without_setup :
  let m :=
    async_setup_entry Sample.consts Sample.receiver (Sample.entry_with None) in
  outcome m Sample.fresh = Raises (KeyError "pioneer_async") ∧
  List.length (client_calls (effects_of m Sample.fresh)) = 5%nat.
Proof. vm_compute. split; reflexivity. Qed.

(** Two entries keep their clients apart, and unloading one leaves the
    other. *)
Example two_entries :
  let first := Sample.entry_with None in
  let second := Sample.other_entry in
  let both :=
    after (async_setup_entry Sample.consts Sample.receiver second)
      (after (async_setup_entry Sample.consts Sample.receiver first)
         Sample.ready) in
  let one :=
    after (async_unload_entry Sample.consts Sample.receiver first) both in
  stored_client Sample.consts first both = Some 7%nat ∧
  stored_client Sample.consts first one = None ∧
  stored_client Sample.consts second one = Some 8%nat.
Proof. vm_compute. repeat split; reflexivity. Qed.

(** ** Every run of [async_unload_entry] *)

Lemma async_unload_entry_cases K env entry w :
  let forwarded :=
    record (unload_entry_record
            :: map (UnloadForwarded (entry_id entry)) (PLATFORMS K)) w in
  async_unload_entry K env entry w =
    match collect (unload_results K env entry) with
    | Raises e => (Raises e, forwarded)
    | Returns results =>
        match hass_data w !! DOMAIN K with
        | None => (Raises (KeyError (DOMAIN K)), forwarded)
        | Some per_entry =>
            match per_entry !! entry_id entry with
            | None => (Raises (KeyError (entry_id entry)), forwarded)
            | Some p =>
                match shutdown env p with
                | Raises e =>
                    (Raises e, record [Called (Shutdown p) (Some e)] forwarded)
                | Returns _ =>
                    if all results
                    then (Returns true,
                          {| hass_data :=
                               <[DOMAIN K := delete (entry_id entry) per_entry]>
                                 (hass_data w);
                             effects :=
                               effects (record [Called (Shutdown p) None]
                                          forwarded) |})
                    else (Returns false,
                          record [Called (Shutdown p) None] forwarded)
                end
            end
        end
    end.
Proof.
  cbv zeta. unfold async_unload_entry.
  erewrite bind_returns by reflexivity.
  assert (gather (map (forward_entry_unload env entry) (PLATFORMS K))
            (record [unload_entry_record] w) =
          (collect (unload_results K env entry),
           record (unload_entry_record
                   :: map (UnloadForwarded (entry_id entry)) (PLATFORMS K)) w))
    as Hgather.
  { unfold gather. rewrite run_all_forward. by rewrite record_record. }
  destruct (collect (unload_results K env entry)) as [results|e].
  2: { by erewrite bind_raises by exact Hgather. }
  erewrite bind_returns by exact Hgather.
  erewrite bind_returns by reflexivity.
  destruct (hass_data w !! DOMAIN K) as [per_entry|] eqn:Hdomain.
  2: { by erewrite bind_raises by (by apply getitem_none). }
  erewrite bind_returns by (by apply getitem_some).
  destruct (per_entry !! entry_id entry) as [p|] eqn:Hentry.
  2: { by erewrite bind_raises by (by apply getitem_none). }
  erewrite bind_returns by (by apply getitem_some).
  unfold mbind at 1, M_bind at 1, invoke at 1.
  destruct (shutdown env p) as [[]|e]; [|done].
  destruct (all results); [|done].
  unfold pop_client.
  erewrite bind_returns; [done|].
  erewrite bind_returns; [done|].
  erewrite bind_returns by reflexivity.
  erewrite bind_returns by (by apply getitem_some).
  erewrite bind_returns by (by apply getitem_some).
  erewrite bind_returns by reflexivity.
  done.
Qed.

Lemma unload_forwards_forwarded id components :
  unload_forwards (map (UnloadForwarded id) components) =
    map (pair id) components.
Proof.
  induction components as [|c components IH]; [done|].
  change (unload_forwards (map (UnloadForwarded id) (c :: components)))
    with ((id, c) :: unload_forwards (map (UnloadForwarded id) components)).
  by rewrite IH.
Qed.

Lemma client_calls_forwarded id components :
  client_calls (map (UnloadForwarded id) components) = [].
Proof. by induction components. Qed.

Lemma collect_returns_iff (rs : list (result bool)) :
  forallb has_returned rs = true ↔ ∃ results, collect rs = Returns results.
Proof.
  split.
  - intros Hrs. destruct (collect_returned rs Hrs) as (bs & ? & _). eauto.
  - intros [results Hcollect].
    destruct (forallb has_returned rs) eqn:Hrs; [done|].
    destruct (collect_raised rs Hrs) as (_ & e & ?). congruence.
Qed.

Lemma collect_raises_member (rs : list (result bool)) e :
  collect rs = Raises e → Raises e ∈ rs.
Proof.
  induction rs as [|[b|e'] rs IH]; simpl; [done| |].
  - destruct (collect rs); [done|]. intros [= ->].
    apply list_elem_of_further. by apply IH.
  - intros [= ->]. apply list_elem_of_here.
Qed.

(** What an unload adds to the effects: the debug record, the unloading
    of each platform, and then at most the shutdown of the stored client. *)
Lemma async_unload_entry_effects K env entry w :
  effects_of (async_unload_entry K env entry) w =
    unload_entry_record
    :: map (UnloadForwarded (entry_id entry)) (PLATFORMS K)
    ++ match collect (unload_results K env entry), stored_client K entry w with
       | Returns _, Some p => [Called (Shutdown p) (exception_of (shutdown env p))]
       | _, _ => []
       end.
Proof.
  unfold effects_of, after. rewrite async_unload_entry_cases. cbv zeta.
  unfold stored_client.
  destruct (collect (unload_results K env entry)) as [results|e];
    [|cbn [snd]; by rewrite effects_since_record, app_nil_r].
  destruct (hass_data w !! DOMAIN K) as [per_entry|]; cbn [mbind option_bind];
    [|cbn [snd]; by rewrite effects_since_record, app_nil_r].
  destruct (per_entry !! entry_id entry) as [p|];
    [|cbn [snd]; by rewrite effects_since_record, app_nil_r].
  destruct (shutdown env p) as [[]|e]; [destruct (all results)|]; cbn [snd];
    rewrite ?record_record, ?effects_since_put, ?effects_since_record; done.
Qed.

Lemma client_calls_unload K env entry w :
  client_calls (effects_of (async_unload_entry K env entry) w) =
    match collect (unload_results K env entry), stored_client K entry w with
    | Returns _, Some p => [(Shutdown p, exception_of (shutdown env p))]
    | _, _ => []
    end.
Proof.
  rewrite async_unload_entry_effects.
  change (client_calls (?a :: ?l ++ ?k)) with (client_calls ([a] ++ l ++ k)).
  rewrite !client_calls_app, client_calls_forwarded. simpl.
  destruct (collect _); [|done]. by destruct (stored_client K entry w).
Qed.

Lemma unload_forwards_unload K env entry w :
  unload_forwards (effects_of (async_unload_entry K env entry) w) =
    map (pair (entry_id entry)) (PLATFORMS K).
Proof.
  rewrite async_unload_entry_effects.
  change (unload_forwards (?a :: ?l ++ ?k))
    with (unload_forwards ([a] ++ l ++ k)).
  unfold unload_forwards. rewrite !omap_app.
  fold (unload_forwards (map (UnloadForwarded (entry_id entry)) (PLATFORMS K))).
  rewrite unload_forwards_forwarded. simpl.
  destruct (collect _); [|by rewrite app_nil_r].
  destruct (stored_client K entry w); by rewrite app_nil_r.
Qed.

(** ** What the code shows beyond the claims *)

(** X1: unload starts the unloading of every platform, once each and in the
    order of PLATFORMS, on every run, before it looks at the stored client;
    what it adds to the effects is its debug record, these, and then the
    client calls, if any. *)
Theorem unload_forwards_every_platform K env entry w :
  let effs := effects_of (async_unload_entry K env entry) w in
  unload_forwards effs = map (pair (entry_id entry)) (PLATFORMS K) ∧
  effs = unload_entry_record
         :: map (UnloadForwarded (entry_id entry)) (PLATFORMS K)
         ++ called (client_calls effs).
Proof.
  cbv zeta. split; [apply unload_forwards_unload|].
  rewrite client_calls_unload. rewrite async_unload_entry_effects.
  destruct (collect _); [|done]. by destruct (stored_client K entry w).
Qed.

(** X2: unloading an entry that has no stored client, on a host whose
    platform unloads return, raises KeyError, for the domain when
    [hass.data] has no map for it and for the entry id otherwise.  By then
    the unloading of every platform has been started; [hass.data] is as it
    was and the client library has not been called. *)
Theorem unload_without_stored_client K env entry w :
  stored_client K entry w = None →
  platform_unloads_return K env entry = true →
  let m := async_unload_entry K env entry in
  outcome m w =
    Raises (KeyError (match hass_data w !! DOMAIN K with
                      | Some _ => entry_id entry
                      | None => DOMAIN K
                      end)) ∧
  hass_data (after m w) = hass_data w ∧
  unload_forwards (effects_of m w) =
    map (pair (entry_id entry)) (PLATFORMS K) ∧
  client_calls (effects_of m w) = [].
Proof.
  intros Hstored [results Hcollect]%collect_returns_iff. cbv zeta.
  split; [|split; [|split]].
  - unfold outcome. rewrite async_unload_entry_cases. cbv zeta.
    fold (unload_results K env entry) in Hcollect. rewrite Hcollect.
    unfold stored_client in Hstored.
    destruct (hass_data w !! DOMAIN K) as [per_entry|]; [|done].
    simpl in Hstored. by rewrite Hstored.
  - unfold after. rewrite async_unload_entry_cases. cbv zeta.
    fold (unload_results K env entry) in Hcollect. rewrite Hcollect.
    unfold stored_client in Hstored.
    destruct (hass_data w !! DOMAIN K) as [per_entry|]; [|done].
    simpl in Hstored. by rewrite Hstored.
  - apply unload_forwards_unload.
  - rewrite client_calls_unload, Hstored. by destruct (collect _).
Qed.

Lemma unload_without_stored_client_witness :
  let m :=
    async_unload_entry Sample.consts Sample.receiver (Sample.entry_with None) in
  outcome m Sample.ready = Raises (KeyError "0123456789abcdef") ∧
  outcome m Sample.fresh = Raises (KeyError "pioneer_async") ∧
  unload_forwards (effects_of m Sample.ready)
    = [("0123456789abcdef", "media_player")].
Proof.
  cbv zeta.
  destruct (unload_without_stored_client Sample.consts Sample.receiver
              (Sample.entry_with None) Sample.ready)
    as (Hready & _ & Hforwards & _); [vm_compute; reflexivity..|].
  destruct (unload_without_stored_client Sample.consts Sample.receiver
              (Sample.entry_with None) Sample.fresh)
    as (Hfresh & _); [vm_compute; reflexivity..|].
  split; [exact Hready|]. split; [exact Hfresh | exact Hforwards].
Defined.

(** X3: when the unloading of a platform raises, unload raises an exception
    that a platform unload raised; the stored client is not shut down, no
    other call into the client is made, and [hass.data] is as it was, so
    the client stays stored. *)
Theorem unload_stops_when_platform_raises K env entry w :
  platform_unloads_return K env entry = false →
  let m := async_unload_entry K env entry in
  (∃ e, outcome m w = Raises e ∧ Raises e ∈ unload_results K env entry) ∧
  hass_data (after m w) = hass_data w ∧
  client_calls (effects_of m w) = [].
Proof.
  intros Hraise. cbv zeta.
  destruct (collect_raised _ Hraise) as (_ & e & Hcollect).
  fold (unload_results K env entry) in Hcollect.
  split; [|split].
  - exists e. split; [|by apply collect_raises_member].
    unfold outcome. rewrite async_unload_entry_cases. cbv zeta.
    by rewrite Hcollect.
  - unfold after. rewrite async_unload_entry_cases. cbv zeta.
    by rewrite Hcollect.
  - by rewrite client_calls_unload, Hcollect.
Qed.

Lemma unload_stops_when_platform_raises_witness :
  let loaded :=
    after (async_setup_entry Sample.consts Sample.receiver
             (Sample.entry_with None)) Sample.ready in
  let m :=
    async_unload_entry Sample.consts
      (Faulty.platform_raises Faulty.ValueError) (Sample.entry_with None) in
  stored_client Sample.consts (Sample.entry_with None) (after m loaded)
    = Some 7%nat ∧
  client_calls (effects_of m loaded) = [].
Proof.
  cbv zeta.
  destruct (unload_stops_when_platform_raises Sample.consts
              (Faulty.platform_raises Faulty.ValueError)
              (Sample.entry_with None)
              (after (async_setup_entry Sample.consts Sample.receiver
                        (Sample.entry_with None)) Sample.ready))
    as (_ & Hdata & Hcalls); [vm_compute; reflexivity|].
  split; [|exact Hcalls].
  unfold stored_client. rewrite Hdata. vm_compute; reflexivity.
Defined.

(** X4: when the shutdown of the stored client raises, unload raises that
    exception and [hass.data] is as it was: the client stays stored even if
    every platform has been unloaded, and shutdown is the only call into
    the client. *)
Theorem unload_keeps_client_when_shutdown_raises K env entry w p e :
  stored_client K entry w = Some p →
  platform_unloads_return K env entry = true →
  shutdown env p = Raises e →
  let m := async_unload_entry K env entry in
  outcome m w = Raises e ∧
  hass_data (after m w) = hass_data w ∧
  client_calls (effects_of m w) = [(Shutdown p, Some e)].
Proof.
  intros Hstored [results Hcollect]%collect_returns_iff Hshutdown. cbv zeta.
  fold (unload_results K env entry) in Hcollect.
  pose proof Hstored as (per_entry & Hdomain & Hentry)%stored_client_lookup.
  split; [|split].
  - unfold outcome. rewrite async_unload_entry_cases. cbv zeta.
    by rewrite Hcollect, Hdomain, Hentry, Hshutdown.
  - unfold after. rewrite async_unload_entry_cases. cbv zeta.
    by rewrite Hcollect, Hdomain, Hentry, Hshutdown.
  - by rewrite client_calls_unload, Hcollect, Hstored, Hshutdown.
Qed.

Lemma unload_keeps_client_when_shutdown_raises_witness :
  let loaded :=
    after (async_setup_entry Sample.consts Sample.receiver
             (Sample.entry_with None)) Sample.ready in
  let m :=
    async_unload_entry Sample.consts
      (Faulty.shutdown_raises Sample.asyncio_TimeoutError)
      (Sample.entry_with None) in
  platform_unloads_succeed Sample.consts
    (Faulty.shutdown_raises Sample.asyncio_TimeoutError)
    (Sample.entry_with None) = true ∧
  outcome m loaded = Raises Sample.asyncio_TimeoutError ∧
  stored_client Sample.consts (Sample.entry_with None) (after m loaded)
    = Some 7%nat.
Proof.
  cbv zeta. split; [vm_compute; reflexivity|].
  destruct (unload_keeps_client_when_shutdown_raises Sample.consts
              (Faulty.shutdown_raises Sample.asyncio_TimeoutError)
              (Sample.entry_with None)
              (after (async_setup_entry Sample.consts Sample.receiver
                        (Sample.entry_with None)) Sample.ready)
              7%nat Sample.asyncio_TimeoutError)
    as (Hout & Hdata & _); [vm_compute; reflexivity..|].
  split; [exact Hout|].
  unfold stored_client. rewrite Hdata. vm_compute; reflexivity.
Defined.

(** ** More about [async_setup_entry] *)


Lemma init_run_complete K env entry sources r cs :
  init_run env (host entry) (port entry) (timeout_of K entry)
    (scan_interval_of K entry) (select_params K (entry_options_of entry))
    sources r cs →
  initialisation_returns K env entry sources = true →
  ∃ p,
    PioneerAVR env (host entry) (port entry) (timeout_of K entry)
      (scan_interval_of K entry) (select_params K (entry_options_of entry))
    = Returns p ∧
    r = Returns p ∧
    cs = [(New (host entry) (port entry) (timeout_of K entry)
             (scan_interval_of K entry)
             (select_params K (entry_options_of entry)), None);
          (Connect p, None); (QueryDeviceInfo p, None); (QueryZones p, None);
          (source_call p sources, None)].
Proof.
  unfold initialisation_returns.
  destruct 1 as [e Hnew|p e Hnew Hconnect|p e Hnew Hconnect Hinfo
                |p e Hnew Hconnect Hinfo Hzones
                |p e Hnew Hconnect Hinfo Hzones Hstep
                |p Hnew Hconnect Hinfo Hzones Hstep];
    rewrite Hnew, ?Hconnect, ?Hinfo, ?Hzones, ?Hstep; simpl;
    try done; eauto.
Qed.




Lemma host_effects_before K env entry cs :
  host_effects
    (setup_entry_record entry :: (decoded K env entry).2 ++ called cs) = [].
Proof.
  pose proof (before_only_logs_and_calls K env entry cs) as Honly.
  unfold host_effects.
  induction Honly as [|ev evs Hev _ IH]; [done|].
  simpl. by rewrite Hev.
Qed.




(** X7: when [hass.data] has no map for the domain, because [async_setup]
    has not run, setup still constructs, connects and initialises the
    client, all five calls returning, and only then raises KeyError for the
    domain at line 90; [hass.data] is as it was and nothing has been done
    to the host. *)
Theorem setup_without_store K env entry w :
  hass_data w !! DOMAIN K = None →
  initialisation_returns K env entry (decoded K env entry).1 = true →
  let m := async_setup_entry K env entry in
  outcome m w = Raises (KeyError (DOMAIN K)) ∧
  hass_data (after m w) = hass_data w ∧
  List.length (client_calls (effects_of m w)) = 5%nat ∧
  Forall (λ cr, cr.2 = None) (client_calls (effects_of m w)) ∧
  host_effects (effects_of m w) = [].
Proof.
  intros Hdomain Hreturns. cbv zeta.
  destruct (async_setup_entry_observed K env entry w)
    as (r & cs & Hrun & Hcalls & Hcase).
  destruct (init_run_complete K env entry _ _ _ Hrun Hreturns)
    as (p & Hnew & -> & ->).
  rewrite Hdomain in Hcase. destruct Hcase as (Hout & Hdata & Heffects).
  rewrite Hcalls. split; [done|]. split; [done|]. split; [done|].
  split; [by repeat constructor|].
  rewrite Heffects. apply host_effects_before.
Qed.

Lemma setup_without_store_witness :
  let m :=
    async_setup_entry Sample.consts Sample.receiver (Sample.entry_with None) in
  outcome m Sample.fresh = Raises (KeyError "pioneer_async") ∧
  List.length (client_calls (effects_of m Sample.fresh)) = 5%nat.
Proof.
  cbv zeta.
  destruct (setup_without_store Sample.consts Sample.receiver
              (Sample.entry_with None) Sample.fresh)
    as (Hout & _ & Hcalls & _); [vm_compute; reflexivity..|].
  split; [exact Hout | exact Hcalls].
Defined.

(** X8: setup writes to [hass.data] under its own domain and its own entry
    id only: in every run the client stored for an entry with another id,
    and whatever [hass.data] holds for another domain, stay as they
    were. *)
Theorem setup_leaves_other_entries K env entry other domain w :
  entry_id other ≠ entry_id entry →
  domain ≠ DOMAIN K →
  let w' := after (async_setup_entry K env entry) w in
  stored_client K other w' = stored_client K other w ∧
  hass_data w' !! domain = hass_data w !! domain.
Proof.
  intros Hother Hdomain. cbv zeta.
  destruct (async_setup_entry_observed K env entry w)
    as (r & cs & _ & _ & Hcase).
  destruct r as [p|e];
    [destruct (hass_data w !! DOMAIN K) as [per_entry|] eqn:Hstore|];
    destruct Hcase as (_ & Hdata & _); unfold stored_client;
    rewrite Hdata; [|done..].
  rewrite lookup_insert_eq, Hstore. simpl.
  split; [by rewrite lookup_insert_ne|by rewrite lookup_insert_ne].
Qed.

Lemma setup_leaves_other_entries_witness :
  let first := Sample.entry_with None in
  let loaded :=
    after (async_setup_entry Sample.consts Sample.receiver first)
      Sample.ready in
  let both :=
    after (async_setup_entry Sample.consts Sample.receiver Sample.other_entry)
      loaded in
  stored_client Sample.consts first both = Some 7%nat ∧
  stored_client Sample.consts Sample.other_entry both = Some 8%nat.
Proof.
  cbv zeta.
  destruct (setup_leaves_other_entries Sample.consts Sample.receiver
              Sample.other_entry (Sample.entry_with None) "hue"
              (after (async_setup_entry Sample.consts Sample.receiver
                        (Sample.entry_with None)) Sample.ready))
    as (Hfirst & _); [vm_compute; intros [=].. |].
  split; [|vm_compute; reflexivity].
  rewrite Hfirst. vm_compute; reflexivity.
Defined.







(** ** Setup and unload together *)

Lemma succeeded_returned (rs : list (result bool)) :
  forallb succeeded rs = true → forallb has_returned rs = true.
Proof.
  induction rs as [|[b|e] rs IH]; simpl; [done| |done].
  intros [_ Hrs]%andb_prop. by apply IH.
Qed.

(** X12: setting an entry up where it had no client, and unloading it with
    every platform unloaded and the shutdown returning, leaves [hass.data]
    exactly as it was before the setup; the client that is shut down is the
    one the setup constructed. *)
Theorem setup_then_unload_restores K env env' entry w per_entry :
  hass_data w !! DOMAIN K = Some per_entry →
  per_entry !! entry_id entry = None →
  initialisation_returns K env entry (decoded K env entry).1 = true →
  platform_unloads_succeed K env' entry = true →
  (∀ p, shutdown env' p = Returns tt) →
  let loaded := after (async_setup_entry K env entry) w in
  let unload := async_unload_entry K env' entry in
  outcome unload loaded = Returns true ∧
  hass_data (after unload loaded) = hass_data w ∧
  ∃ p,
    PioneerAVR env (host entry) (port entry) (timeout_of K entry)
      (scan_interval_of K entry) (select_params K (entry_options_of entry))
    = Returns p ∧
    client_calls (effects_of unload loaded) = [(Shutdown p, None)].
Proof.
  intros Hdomain Hentry Hreturns Hsucceed Hshutdown. cbv zeta.
  destruct (async_setup_entry_observed K env entry w)
    as (r & cs & Hrun & _ & Hcase).
  destruct (init_run_complete K env entry _ _ _ Hrun Hreturns)
    as (p & Hnew & -> & ->).
  rewrite Hdomain in Hcase. destruct Hcase as (_ & Hdata & _).
  set (loaded := after (async_setup_entry K env entry) w) in *.
  assert (stored_client K entry loaded = Some p) as Hstored.
  { unfold stored_client. rewrite Hdata, lookup_insert_eq. simpl.
    by rewrite lookup_insert_eq. }
  unfold platform_unloads_succeed in Hsucceed.
  destruct (collect_returned _ (succeeded_returned _ Hsucceed))
    as (results & Hcollect & Hall).
  rewrite Hsucceed in Hall.
  split; [|split].
  - unfold outcome. rewrite async_unload_entry_cases. cbv zeta.
    rewrite Hcollect, Hdata, lookup_insert_eq, lookup_insert_eq.
    by rewrite Hshutdown, Hall.
  - unfold after at 1. rewrite async_unload_entry_cases. cbv zeta.
    rewrite Hcollect, Hdata, lookup_insert_eq, lookup_insert_eq.
    rewrite Hshutdown, Hall. cbn [snd hass_data].
    rewrite insert_insert_eq, delete_insert_id by done.
    by apply insert_id.
  - exists p. split; [done|].
    by rewrite client_calls_unload, Hcollect, Hstored, Hshutdown.
Qed.

Lemma setup_then_unload_restores_witness :
  let entry := Sample.entry_with None in
  let loaded :=
    after (async_setup_entry Sample.consts Sample.receiver entry)
      Sample.ready in
  let unload := async_unload_entry Sample.consts Sample.receiver entry in
  outcome unload loaded = Returns true ∧
  hass_data (after unload loaded) = hass_data Sample.ready.
Proof.
  cbv zeta.
  destruct (setup_then_unload_restores Sample.consts Sample.receiver
              Sample.receiver (Sample.entry_with None) Sample.ready ∅)
    as (Hout & Hdata & _); [vm_compute; reflexivity..|done|].
  split; [exact Hout | exact Hdata].
Defined.

(** ** [async_setup], the topic of the options update and the params *)

(** X13: [async_setup] returns True and makes sure [hass.data] has a map
    for the domain without touching one that is there: the clients stored
    for the entries, and what other domains hold, stay as they were, and
    running it again changes nothing. *)
Theorem async_setup_keeps_clients K w :
  let w' := after (async_setup K) w in
  outcome (async_setup K) w = Returns true ∧
  is_Some (hass_data w' !! DOMAIN K) ∧
  (∀ entry, stored_client K entry w' = stored_client K entry w) ∧
  (∀ domain, domain ≠ DOMAIN K →
     hass_data w' !! domain = hass_data w !! domain) ∧
  hass_data (after (async_setup K) w') = hass_data w'.
Proof.
  cbv zeta.
  destruct (async_setup_prepares_store K w) as (Hout & Hstore & Hothers).
  split; [done|]. split; [by rewrite Hstore|]. split; [|split; [done|]].
  - intros entry. unfold stored_client. rewrite Hstore.
    by destruct (hass_data w !! DOMAIN K).
  - apply map_eq. intros domain.
    destruct (async_setup_prepares_store K (after (async_setup K) w))
      as (_ & Hstore' & Hothers').
    destruct (decide (domain = DOMAIN K)) as [->|Hne]; [|by apply Hothers'].
    by rewrite Hstore', Hstore.
Qed.

(** X14: two entries have the same options-update topic exactly when their
    unique ids read the same; an entry without unique id signals on the
    topic that ends in -None, as does every other such entry. *)
Theorem options_update_topics_coincide K entry other :
  (options_update_topic K entry = options_update_topic K other ↔
   str_of (unique_id entry) = str_of (unique_id other)) ∧
  (unique_id entry = None →
   ∀ w, effects_of (_update_listener K entry) w =
          [SignalSent (PIONEER_OPTIONS_UPDATE K +:+ "-None")
             (options entry)]).
Proof.
  split.
  - split; [apply options_update_topic_inj|].
    unfold options_update_topic. by intros ->.
  - intros Hnone w.
    unfold effects_of, after, _update_listener, emit. cbn [snd].
    rewrite effects_since_record. unfold options_update_topic.
    by rewrite Hnone.
Qed.

Lemma options_update_topics_coincide_witness :
  effects_of (_update_listener Sample.consts Faulty.anonymous_entry)
    Sample.ready
  = [SignalSent "pioneer_options_update-None" (Some ∅)].
Proof.
  destruct (options_update_topics_coincide Sample.consts
              Faulty.anonymous_entry Sample.other_entry) as (_ & Hnone).
  rewrite (Hnone eq_refl Sample.ready). reflexivity.
Defined.

(** X15: the params handed to the client are a part of the entry's own
    options, and they depend on which names PARAMS_ALL holds, not on their
    order or on a name being listed twice. *)
Theorem select_params_by_names K K' (entry_options : dict) :
  select_params K entry_options ⊆ entry_options ∧
  ((∀ k, k ∈ PARAMS_ALL K ↔ k ∈ PARAMS_ALL K') →
   select_params K entry_options = select_params K' entry_options).
Proof.
  split.
  - apply map_subseteq_spec. intros k v.
    rewrite select_params_lookup. by case_decide.
  - intros Hnames. apply map_eq. intros k.
    rewrite !select_params_lookup.
    destruct (decide (k ∈ PARAMS_ALL K)) as [Hin|Hout].
    + by rewrite decide_True by (by apply Hnames).
    + rewrite decide_False; [done|]. intros Hin. by apply Hout, Hnames.
Qed.

Lemma select_params_by_names_witness :
  select_params Sample.consts
    (entry_options_of
       (Sample.entry_with (Sample.sources_option Sample.one_source)))
  = select_params Faulty.shuffled_consts
      (entry_options_of
         (Sample.entry_with (Sample.sources_option Sample.one_source))).
Proof.
  destruct (select_params_by_names Sample.consts Faulty.shuffled_consts
              (entry_options_of
                 (Sample.entry_with
                    (Sample.sources_option Sample.one_source))))
    as (_ & Hsame).
  apply Hsame. intros k. simpl.
  rewrite !elem_of_cons, !elem_of_nil. tauto.
Defined.

(** X16: the decoding of lines 65-69 swallows whatever json.loads raises,
    of whatever class: it logs the option as an error and goes on with the
    empty mapping.  The one way it raises is an options mapping without the
    sources key, which the handler reads again: KeyError, with nothing
    logged. *)
Theorem decode_sources_cases K env (opts : dict) w :
  decode_sources K env opts w =
    match opts !! CONF_SOURCES K with
    | Some v =>
        match json_loads env v with
        | Returns sources => (Returns sources, w)
        | Raises _ =>
            (Returns (VDict ∅),
             record [Logged ERROR "invalid sources specified: %s" [v]] w)
        end
    | None => (Raises (KeyError (CONF_SOURCES K)), w)
    end.
Proof.
  unfold decode_sources, try_except.
  destruct (opts !! CONF_SOURCES K) as [v|] eqn:Hv.
  - erewrite bind_returns by (by apply getitem_some).
    unfold of_result. destruct (json_loads env v); [done|]. simpl.
    by erewrite bind_returns by (by apply getitem_some).
  - erewrite bind_raises by (by apply getitem_none). simpl.
    by erewrite bind_raises by (by apply getitem_none).
Qed.

(** X17: an unload that returned False, because a platform did not unload,
    has shut the client down and left it stored, so the unload can be tried
    again: once the platforms unload, the second attempt returns True and
    removes the client, after shutting it down a second time. *)
Theorem failed_unload_can_be_retried K env env' entry w p :
  stored_client K entry w = Some p →
  platform_unloads_return K env entry = true →
  platform_unloads_succeed K env entry = false →
  shutdown env p = Returns tt →
  platform_unloads_succeed K env' entry = true →
  shutdown env' p = Returns tt →
  let first := async_unload_entry K env entry in
  let again := async_unload_entry K env' entry in
  outcome first w = Returns false ∧
  client_calls (effects_of first w) = [(Shutdown p, None)] ∧
  outcome again (after first w) = Returns true ∧
  client_calls (effects_of again (after first w)) = [(Shutdown p, None)] ∧
  stored_client K entry (after again (after first w)) = None.
Proof.
  intros Hstored Hreturn Hfail Hshutdown Hsucceed Hshutdown'. cbv zeta.
  pose proof Hstored as (per_entry & Hdomain & Hentry)%stored_client_lookup.
  unfold platform_unloads_return, platform_unloads_succeed in *.
  destruct (collect_returned _ Hreturn) as (results & Hcollect & Hall).
  destruct (collect_returned _ (succeeded_returned _ Hsucceed))
    as (results' & Hcollect' & Hall').
  rewrite Hfail in Hall. rewrite Hsucceed in Hall'.
  assert (async_unload_entry K env entry w =
          (Returns false,
           record [Called (Shutdown p) None]
             (record (unload_entry_record
                      :: map (UnloadForwarded (entry_id entry)) (PLATFORMS K))
                w))) as Hfirst.
  { rewrite async_unload_entry_cases. cbv zeta.
    by rewrite Hcollect, Hdomain, Hentry, Hshutdown, Hall. }
  assert (stored_client K entry (after (async_unload_entry K env entry) w)
          = Some p) as Hstill.
  { unfold after. by rewrite Hfirst. }
  split; [unfold outcome; by rewrite Hfirst|].
  split; [by rewrite client_calls_unload, Hcollect, Hstored, Hshutdown|].
  split; [|split].
  - unfold outcome at 1. rewrite async_unload_entry_cases. cbv zeta.
    unfold after. rewrite Hfirst. cbn [snd hass_data record].
    by rewrite Hcollect', Hdomain, Hentry, Hshutdown', Hall'.
  - by rewrite client_calls_unload, Hcollect', Hstill, Hshutdown'.
  - unfold after at 1. rewrite async_unload_entry_cases. cbv zeta.
    unfold after. rewrite Hfirst. cbn [snd hass_data record].
    rewrite Hcollect', Hdomain, Hentry, Hshutdown', Hall'.
    unfold stored_client. cbn [snd hass_data].
    rewrite lookup_insert_eq. simpl. by rewrite lookup_delete_eq.
Qed.

Lemma failed_unload_can_be_retried_witness :
  let entry := Sample.entry_with None in
  let loaded :=
    after (async_setup_entry Sample.consts Sample.receiver entry)
      Sample.ready in
  let stuck :=
    after (async_unload_entry Sample.consts Sample.stuck_platform entry)
      loaded in
  stored_client Sample.consts entry stuck = Some 7%nat ∧
  outcome (async_unload_entry Sample.consts Sample.receiver entry) stuck
    = Returns true ∧
  stored_client Sample.consts entry
    (after (async_unload_entry Sample.consts Sample.receiver entry) stuck)
    = None.
Proof.
  cbv zeta.
  destruct (failed_unload_can_be_retried Sample.consts Sample.stuck_platform
              Sample.receiver (Sample.entry_with None)
              (after (async_setup_entry Sample.consts Sample.receiver
                        (Sample.entry_with None)) Sample.ready) 7%nat)
    as (_ & _ & Hout & _ & Hgone); [vm_compute; reflexivity..|].
  split; [vm_compute; reflexivity|]. split; [exact Hout | exact Hgone].
Defined.
